(** * Transition-aggregation pipeline of the Jira leaderboard

    A shallow embedding of the "movers" pipeline of [server.js] and
    [netlify/functions/movers.js]: the transition filter, the time window,
    per-issue pagination, the bounded worker pool, ranking, the TTL cache,
    query resolution and the request handler.

    Conventions of the embedding.
    - A JavaScript string is a [string]; the functions that depend on the
      character repertoire ([trim], [toLowerCase]) are given on the ASCII
      range, which is what status names, digits and white space of the
      requests use.
    - [null]/[undefined] is [None]; a value is "truthy" when it is a
      non-empty string (or a number other than 0 and NaN).
    - Integers that the code keeps in a Number (counts, offsets, instants in
      milliseconds) are [Z] or [nat]; NaN is [None].
    - What the code obtains from the platform ([new Date(s).getTime()],
      [String.prototype.localeCompare], [new URL(s).searchParams]) is an
      operation of the class [Runtime]. *)

From Stdlib Require Import ZArith QArith Lqa Ascii String List Bool Lia.
From Stdlib Require Import Sorting.Sorted Sorting.Permutation.
From stdpp Require Import gmap strings pretty list sorting fin_maps.

Local Open Scope Z_scope.

(** ** Strings *)

Module Str.

Definition empty : string := EmptyString.

(** ASCII white space removed by [String.prototype.trim]:
    TAB, LF, VT, FF, CR and SPACE. *)
Definition is_space (c : ascii) : bool :=
  let n := nat_of_ascii c in
  Nat.eqb n 32 || (Nat.leb 9 n && Nat.leb n 13).

Definition is_digit (c : ascii) : bool :=
  let n := nat_of_ascii c in Nat.leb 48 n && Nat.leb n 57.

Fixpoint trimStart (s : string) : string :=
  match s with
  | EmptyString => EmptyString
  | String c s' => if is_space c then trimStart s' else s
  end.

Fixpoint trimEnd (s : string) : string :=
  match s with
  | EmptyString => EmptyString
  | String c s' =>
      match trimEnd s' with
      | EmptyString => if is_space c then EmptyString else String c EmptyString
      | t => String c t
      end
  end.

(** [s.trim()] *)
Definition trim (s : string) : string := trimEnd (trimStart s).

Definition lower_ascii (c : ascii) : ascii :=
  let n := nat_of_ascii c in
  if Nat.leb 65 n && Nat.leb n 90 then ascii_of_nat (n + 32) else c.

(** [s.toLowerCase()] *)
Fixpoint toLowerCase (s : string) : string :=
  match s with
  | EmptyString => EmptyString
  | String c s' => String (lower_ascii c) (toLowerCase s')
  end.

Fixpoint all (p : ascii -> bool) (s : string) : bool :=
  match s with
  | EmptyString => true
  | String c s' => p c && all p s'
  end.

(** [/^\d+$/.test(s)] *)
Definition all_digits (s : string) : bool :=
  match s with
  | EmptyString => false
  | _ => all is_digit s
  end.

(** [s.startsWith(p)] *)
Fixpoint startsWith (p s : string) : bool :=
  match p, s with
  | EmptyString, _ => true
  | String a p', String b s' => Ascii.eqb a b && startsWith p' s'
  | String _ _, EmptyString => false
  end.

Fixpoint last_char (s : string) : option ascii :=
  match s with
  | EmptyString => None
  | String c EmptyString => Some c
  | String _ s' => last_char s'
  end.

(** [s.endsWith(c)] for a one-character [c] *)
Definition endsWithChar (c : ascii) (s : string) : bool :=
  match last_char s with
  | Some d => Ascii.eqb c d
  | None => false
  end.

Fixpoint drop_last (s : string) : string :=
  match s with
  | EmptyString => EmptyString
  | String _ EmptyString => EmptyString
  | String c s' => String c (drop_last s')
  end.

(** [s.slice(1, -1)] *)
Definition slice_1_m1 (s : string) : string :=
  match s with
  | EmptyString => EmptyString
  | String _ s' => drop_last s'
  end.

(** A value used as a condition: [null], [undefined] and the empty
    string are falsy, every other string is truthy. *)
Definition truthy (o : option string) : bool :=
  match o with
  | Some (String _ _) => true
  | _ => false
  end.

(** [o || d] on strings *)
Definition or_else (o : option string) (d : string) : string :=
  match o with
  | Some (String c s) => String c s
  | _ => d
  end.

(** Two strings are equal up to (ASCII) letter case. *)
Definition eq_ci (a b : string) : Prop := toLowerCase a = toLowerCase b.

Definition eqb_ci (a b : string) : bool :=
  String.eqb (toLowerCase a) (toLowerCase b).

End Str.

(** ** What the platform provides *)

(** The object that the handler serialises into the cache key. *)
Record cache_key := {
  k_jql : string;
  k_from : option string;
  k_to : option string;
  k_notFrom : option string;
  k_notTo : option string;
  k_since : option string;
  k_until : option string;
  k_limit : Z;
  k_maxIssues : Z;
  k_concurrencyParam : Z
}.

Class Runtime := {
  (** [new Date(s).getTime()]; [None] is NaN (an invalid date). *)
  dateTime : string -> option Z;
  (** [a.localeCompare(b)] by its sign. *)
  localeCompare : string -> string -> comparison;
  (** [new URL(s).searchParams] as the decoded name-value pairs in order;
      [None] when the constructor throws. *)
  urlSearchParams : string -> option (list (string * string));
  (** [JSON.stringify] of the cache-key object. *)
  JSON_stringify : cache_key -> string
}.

(** The laws of a collation that the ranking relies on: [localeCompare]
    is a consistent comparator, that is, "not after" is total and
    transitive. *)
Class Collation (R : Runtime) : Prop := {
  collate_sym : forall a b, localeCompare b a = CompOpp (localeCompare a b);
  collate_trans : forall a b c,
      localeCompare a b <> Gt -> localeCompare b c <> Gt ->
      localeCompare a c <> Gt
}.

(** ** Data model *)

(** One entry of [h.items]. *)
Record item := {
  field : option string;
  fromString : option string;
  toString : option string
}.

Record author := {
  displayName : option string;
  name : option string;
  accountId : option string
}.

(** One entry of [log.values]. [items = None] is a value that is not an
    array. *)
Record history := {
  h_author : option author;
  created : option string;
  items : option (list item)
}.

(** The filter arguments of [countTransitionsByUser], as the handler reads
    them with [searchParams.get]. *)
Record criteria := {
  fromName : option string;
  toName : option string;
  notFromName : option string;
  notToName : option string;
  since : option string;
  until : option string
}.

Definition status : string := "status".

(** ** Time window and transition filter *)

Section Filter.
Context {R : Runtime}.

(** [new Date(ts).getTime()] for the [created] of a history; an absent
    value gives NaN. *)
Definition getTime (ts : option string) : option Z :=
  match ts with
  | Some s => dateTime s
  | None => None
  end.

(** [t < new Date(b).getTime()] on Numbers: false when the bound is NaN. *)
Definition num_lt (t : Z) (b : option Z) : bool :=
  match b with
  | Some v => t <? v
  | None => false
  end.

Definition num_gt (t : Z) (b : option Z) : bool :=
  match b with
  | Some v => v <? t
  | None => false
  end.

Definition withinWindow (ts since until : option string) : bool :=
  match getTime ts with
  | None => false
  | Some t =>
      if Str.truthy since && num_lt t (getTime since) then false
      else if Str.truthy until && num_gt t (getTime until) then false
      else true
  end.

(** The guard of [processIssue] on a history: false is the [continue]. *)
Definition windowPasses (since until ts : option string) : bool :=
  if Str.truthy since || Str.truthy until
  then withinWindow ts since until
  else true.

(** The local [from] and [to] of the inner loop. *)
Definition fromValue (it : item) : string :=
  Str.trim (Str.or_else (fromString it) Str.empty).

Definition toValue (it : item) : string :=
  Str.trim (Str.or_else (toString it) Str.empty).

(** [!want || v.toLowerCase() === String(want).toLowerCase()] *)
Definition equalsOk (want : option string) (v : string) : bool :=
  negb (Str.truthy want) ||
  Str.eqb_ci v (Str.or_else want Str.empty).

(** [!avoid || v.toLowerCase() !== String(avoid).toLowerCase()] *)
Definition differsOk (avoid : option string) (v : string) : bool :=
  negb (Str.truthy avoid) ||
  negb (Str.eqb_ci v (Str.or_else avoid Str.empty)).

Definition fromOk (c : criteria) (it : item) : bool :=
  equalsOk (fromName c) (fromValue it) && differsOk (notFromName c) (fromValue it).

Definition toOk (c : criteria) (it : item) : bool :=
  equalsOk (toName c) (toValue it) && differsOk (notToName c) (toValue it).

(** The condition under which the inner loop reaches [counts.set]. *)
Definition itemMatches (c : criteria) (it : item) : bool :=
  match field it with
  | Some f => if String.eqb f status then fromOk c it && toOk c it else false
  | None => false
  end.

(** A change event of a history is counted when the history passes the
    window guard and the item passes the field and from/to tests. *)
Definition eventMatches (c : criteria) (h : history) (it : item) : bool :=
  windowPasses (since c) (until c) (created h) && itemMatches c it.

End Filter.

(** ** Tally *)

(** The [counts] map of [countTransitionsByUser]: a JavaScript [Map] keeps
    its keys in insertion order and [set] on a present key keeps the key's
    place, so the map is an association list without duplicate keys. *)
Definition tally := list (string * Z).

Fixpoint tally_get (k : string) (m : tally) : option Z :=
  match m with
  | [] => None
  | (k', v) :: m' => if String.eqb k' k then Some v else tally_get k m'
  end.

Fixpoint tally_set (k : string) (v : Z) (m : tally) : tally :=
  match m with
  | [] => [(k, v)]
  | (k', v') :: m' =>
      if String.eqb k' k then (k, v) :: m' else (k', v') :: tally_set k v m'
  end.

(** [n || d] on Numbers: 0 and NaN are falsy. *)
Definition num_or (n : option Z) (d : Z) : Z :=
  match n with
  | Some 0 | None => d
  | Some v => v
  end.

(** [counts.set(k, (counts.get(k) || 0) + 1)] *)
Definition bump (k : string) (m : tally) : tally :=
  tally_set k (num_or (tally_get k m) 0 + 1) m.

Definition Unknown : string := "Unknown".

(** [h.author && (h.author.displayName || h.author.name ||
    h.author.accountId) || 'Unknown'] *)
Definition authorName (h : history) : string :=
  match h_author h with
  | None => Unknown
  | Some a =>
      if Str.truthy (displayName a) then Str.or_else (displayName a) Unknown
      else if Str.truthy (name a) then Str.or_else (name a) Unknown
      else Str.or_else (accountId a) Unknown
  end.

(** [Array.isArray(v) ? v : []] *)
Definition arr_or_empty {A} (v : option (list A)) : list A :=
  match v with
  | Some l => l
  | None => []
  end.

Section Aggregation.
Context {R : Runtime}.

(** The body of [for (const h of histories)] in [processIssue]. *)
Definition processHistory (c : criteria) (counts : tally) (h : history) : tally :=
  let author := authorName h in
  if windowPasses (since c) (until c) (created h) then
    fold_left
      (fun cnt it => if itemMatches c it then bump author cnt else cnt)
      (arr_or_empty (items h)) counts
  else counts.

(** The change events of a history, one per item, in order. *)
Definition events_of (h : history) : list (history * item) :=
  map (fun it => (h, it)) (arr_or_empty (items h)).

(** Feeding a sequence of change events to the tally. *)
Definition accumulate (c : criteria) (evs : list (history * item))
    (counts : tally) : tally :=
  fold_left
    (fun cnt ev => if eventMatches c (fst ev) (snd ev)
                   then bump (authorName (fst ev)) cnt else cnt)
    evs counts.

(** [(a, b) => b.count - a.count || a.user.localeCompare(b.user)], by its
    sign: [Lt] puts [a] first. *)
Definition compareEntries (a b : string * Z) : comparison :=
  match snd b - snd a ?= 0 with
  | Eq => localeCompare (fst a) (fst b)
  | c => c
  end.

End Aggregation.

(** The shape shared by the two comparators of the pipeline: the count
    [cnt], highest first, then the key [k] under [localeCompare]. *)
Definition byCountThenKey {R : Runtime} {A : Type} (cnt : A -> Z)
    (k : A -> string) (a b : A) : comparison :=
  match cnt b - cnt a ?= 0 with
  | Eq => localeCompare (k a) (k b)
  | c => c
  end.

(** [Array.prototype.sort] with a comparator: a stable sort (insertion
    from the right keeps equal elements in their order). *)
Section Sort.
Context {A : Type} (cmp : A -> A -> comparison).

Fixpoint insert_by (x : A) (l : list A) : list A :=
  match l with
  | [] => [x]
  | y :: l' =>
      match cmp x y with
      | Gt => y :: insert_by x l'
      | _ => x :: l
      end
  end.

Fixpoint sort_by (l : list A) : list A :=
  match l with
  | [] => []
  | x :: l' => insert_by x (sort_by l')
  end.

(** [a] is not after [b]. *)
Definition le_by (a b : A) : Prop := cmp a b <> Gt.

End Sort.

(** [arr.slice(0, e)]: a negative [e] counts from the end. *)
Definition slice0 {A} (l : list A) (e : Z) : list A :=
  let len := Z.of_nat (length l) in
  let k := if e <? 0 then Z.max (len + e) 0 else Z.min e len in
  firstn (Z.to_nat k) l.

(** The tail of [countTransitionsByUser]: entries of the map, sorted. *)
Definition ranked {R : Runtime} (counts : tally) : list (string * Z) :=
  sort_by compareEntries counts.

(** ** Remote API and per-issue pagination *)

(** A call either returns or throws (a rejected promise). *)
Inductive outcome (A : Type) : Type :=
| Ok (a : A)
| Throw (msg : string).
Arguments Ok {A} a.
Arguments Throw {A} msg.

(** One changelog page, [{ total, values }]. *)
Record page := {
  total : option Z;
  values : option (list history)
}.

Record issue := {
  key : option string;
  id : string
}.

(** The requests that leave the process. *)
Inductive remote_call : Type :=
| CallSearch (jql : string) (maxResults : Z)
| CallChangelog (issueId : string) (startAt maxResults : Z).

(** The remote API as the process sees it. The answer to a changelog
    request may depend on the issue, on how many pages of that issue were
    requested before, and on the requested offset and page size. *)
Record remote := {
  searchResponse : string -> Z -> outcome (option (list issue));
  changelogResponse : string -> nat -> Z -> Z -> outcome page
}.

(** What one aggregation run has built up: the tally and the requests
    made so far. *)
Record agg := {
  counts : tally;
  calls : list remote_call
}.

Section Pagination.
Variable rem : remote.
(** The body of the loop over [histories]; [processHistory c] for
    [processIssue], [discoverHistory] for [discoverTransitionPairs]. *)
Variable step : tally -> history -> tally.

(** The [do { ... } while (startAt < total)] loop of one issue, with
    [fuel] bounding the number of iterations: [None] means that the loop
    is still running when the fuel is spent. [k] counts the pages
    requested so far. *)
Fixpoint pageLoop (fuel : nat) (issueId : string) (k : nat) (startAt : Z)
    (a : agg) : option (outcome unit * agg) :=
  match fuel with
  | O => None
  | S fuel' =>
      let a1 := {| counts := counts a;
                   calls := calls a ++ [CallChangelog issueId startAt 100] |} in
      match changelogResponse rem issueId k startAt 100 with
      | Throw e => Some (Throw e, a1)
      | Ok log =>
          let total := num_or (total log) 0 in
          let histories := arr_or_empty (values log) in
          let a2 := {| counts := fold_left step histories (counts a1);
                       calls := calls a1 |} in
          let startAt' := startAt + Z.of_nat (length histories) in
          if Nat.eqb (length histories) 0 then Some (Ok tt, a2)
          else if startAt' <? total
               then pageLoop fuel' issueId (S k) startAt' a2
               else Some (Ok tt, a2)
      end
  end.

(** [processIssue(issue)]: [startAt = 0] and no page requested yet. *)
Definition processIssue (fuel : nat) (i : issue) (a : agg)
  : option (outcome unit * agg) :=
  pageLoop fuel (id i) 0 0 a.

(** The issues one after the other, in array order: the schedule of the
    pool with one worker, and the loop of [discoverTransitionPairs]. *)
Fixpoint processAll (fuel : nat) (issues : list issue) (a : agg)
  : option (outcome unit * agg) :=
  match issues with
  | [] => Some (Ok tt, a)
  | i :: rest =>
      match processIssue fuel i a with
      | None => None
      | Some (Throw e, a') => Some (Throw e, a')
      | Some (Ok _, a') => processAll fuel rest a'
      end
  end.

End Pagination.

(** The requests of one issue as the specification words them: the first
    at offset 0, each with page size 100, each next offset advanced by the
    number of histories that came back; the walk ends with a request that
    fails, that returns no history, or whose advanced offset reaches the
    total it reports. *)
Inductive page_walk (rem : remote) (issueId : string)
  : nat -> Z -> list remote_call -> Prop :=
| walk_throw k s e :
    changelogResponse rem issueId k s 100 = Throw e ->
    page_walk rem issueId k s [CallChangelog issueId s 100]
| walk_empty k s log :
    changelogResponse rem issueId k s 100 = Ok log ->
    arr_or_empty (values log) = [] ->
    page_walk rem issueId k s [CallChangelog issueId s 100]
| walk_reached k s log :
    changelogResponse rem issueId k s 100 = Ok log ->
    num_or (total log) 0 <= s + Z.of_nat (length (arr_or_empty (values log))) ->
    page_walk rem issueId k s [CallChangelog issueId s 100]
| walk_more k s log tr :
    changelogResponse rem issueId k s 100 = Ok log ->
    arr_or_empty (values log) <> [] ->
    s + Z.of_nat (length (arr_or_empty (values log))) < num_or (total log) 0 ->
    page_walk rem issueId (S k)
      (s + Z.of_nat (length (arr_or_empty (values log)))) tr ->
    page_walk rem issueId k s (CallChangelog issueId s 100 :: tr).

(** ** The worker pool [mapLimit] *)

(** A JavaScript Number that configures the pool. *)
Inductive jsnum : Type :=
| NaN
| Num (q : Q)
| PosInf
| NegInf.

(** [a <= b] on Numbers; every comparison with NaN is false. *)
Definition num_leb (a b : jsnum) : bool :=
  match a, b with
  | NaN, _ | _, NaN => false
  | NegInf, _ => true
  | _, PosInf => true
  | PosInf, _ => false
  | _, NegInf => false
  | Num x, Num y => Qle_bool x y
  end.

Definition Math_min (a b : jsnum) : jsnum :=
  match a, b with
  | NaN, _ | _, NaN => NaN
  | _, _ => if num_leb a b then a else b
  end.

Definition Math_max (a b : jsnum) : jsnum :=
  match a, b with
  | NaN, _ | _, NaN => NaN
  | _, _ => if num_leb a b then b else a
  end.

Definition of_Z (z : Z) : jsnum := Num (inject_Z z).

(** [Math.max(1, Math.min(10, Number(process.env.MOVERS_CONCURRENCY || 5)))];
    the argument is the number the variable reads as, [None] when it is
    unset or empty. *)
Definition concurrency (MOVERS_CONCURRENCY : option jsnum) : jsnum :=
  let n := match MOVERS_CONCURRENCY with
           | Some v => v
           | None => of_Z 5
           end in
  Math_max (of_Z 1) (Math_min (of_Z 10) n).

Module mapLimit.

(** The life of the promise [p] of one item: created (the callback of
    [then] has not run yet), running [iter(item)], settled (the callback
    of [finally] has not run yet). The promise leaves [pending] when that
    callback runs. *)
Inductive stage : Type := Created | Running | Settled.

(** Where [mapLimit] itself stands: in the [for] loop, suspended on
    [await Promise.race(pending)] ([true] once the callback of [finally]
    of a raced promise has run), suspended on [await Promise.all(pending)],
    or left with an exception. *)
Inductive loop : Type :=
| Looping
| AwaitRace (woken : bool)
| AwaitAll
| Aborted.

Record pool := {
  todo : list issue;
  pending : list (issue * stage);
  at_loop : loop
}.

Definition init (arr : list issue) : pool :=
  {| todo := arr; pending := []; at_loop := Looping |}.

(** [pending.size >= limit] *)
Definition size_reaches (sz : nat) (limit : jsnum) : bool :=
  num_leb limit (of_Z (Z.of_nat sz)).

Definition wake (l : loop) : loop :=
  match l with
  | AwaitRace _ => AwaitRace true
  | _ => l
  end.

(** The steps of the pool. The callback of [finally] is registered on
    [p] before [Promise.race] registers its own, and the reactions of a
    promise run in the order of registration: [mapLimit] resumes from the
    race only after a raced promise has left [pending]. *)
Inductive step (limit : jsnum) : pool -> pool -> Prop :=
| step_spawn x rest pend :
    step limit
      {| todo := x :: rest; pending := pend; at_loop := Looping |}
      {| todo := rest; pending := pend ++ [(x, Created)];
         at_loop := if size_reaches (length (pend ++ [(x, Created)])) limit
                    then AwaitRace false else Looping |}
| step_start x td l1 l2 lp :
    step limit
      {| todo := td; pending := l1 ++ (x, Created) :: l2; at_loop := lp |}
      {| todo := td; pending := l1 ++ (x, Running) :: l2; at_loop := lp |}
| step_finish x td l1 l2 lp :
    step limit
      {| todo := td; pending := l1 ++ (x, Running) :: l2; at_loop := lp |}
      {| todo := td; pending := l1 ++ (x, Settled) :: l2; at_loop := lp |}
| step_reap x td l1 l2 lp :
    step limit
      {| todo := td; pending := l1 ++ (x, Settled) :: l2; at_loop := lp |}
      {| todo := td; pending := l1 ++ l2; at_loop := wake lp |}
| step_resume td pend :
    step limit
      {| todo := td; pending := pend; at_loop := AwaitRace true |}
      {| todo := td; pending := pend; at_loop := Looping |}
| step_abort td pend :
    step limit
      {| todo := td; pending := pend; at_loop := AwaitRace true |}
      {| todo := td; pending := pend; at_loop := Aborted |}
| step_all pend :
    step limit
      {| todo := []; pending := pend; at_loop := Looping |}
      {| todo := []; pending := pend; at_loop := AwaitAll |}.

Inductive reachable (limit : jsnum) (arr : list issue) : pool -> Prop :=
| reach_init : reachable limit arr (init arr)
| reach_step p q : reachable limit arr p -> step limit p q ->
                   reachable limit arr q.

Definition is_running (e : issue * stage) : bool :=
  match snd e with
  | Running => true
  | _ => false
  end.

(** The items undergoing per-item pagination. *)
Definition in_flight (p : pool) : nat :=
  length (filter (fun e => is_running e = true) (pending p)).

(** The room left in [pending] for a limit [q], by the place of
    [mapLimit]: one more promise than the limit allows is never there, and
    outside the wait for a race the size is below the limit. *)
Definition room (q : Q) (p : pool) : Prop :=
  let n := inject_Z (Z.of_nat (length (pending p))) in
  match at_loop p with
  | AwaitRace false => (n < q + 1)%Q
  | _ => (n < q)%Q
  end.

End mapLimit.

(** ** Result cache *)

Record cache_entry (V : Type) := {
  value : V;
  expireAt : Z
}.
Arguments value {V} _.
Arguments expireAt {V} _.

Section Cache.
Context {V : Type}.

(** [cacheGet(key)] at the instant [now]: the value read, if any, and the
    map afterwards. *)
Definition cacheGet (now : Z) (key : string) (CACHE : gmap string (cache_entry V))
  : option V * gmap string (cache_entry V) :=
  match CACHE !! key with
  | None => (None, CACHE)
  | Some hit =>
      if negb (expireAt hit =? 0) && (expireAt hit <? now)
      then (None, delete key CACHE)
      else (Some (value hit), CACHE)
  end.

(** [cacheSet(key, value, ttlMs)] at the instant [now]; [ttlMs = None] is
    an absent (or NaN) argument. *)
Definition cacheSet (now : Z) (key : string) (v : V) (ttlMs : option Z)
    (CACHE : gmap string (cache_entry V)) : gmap string (cache_entry V) :=
  <[ key := {| value := v;
               expireAt := match ttlMs with
                           | Some 0 | None => 0
                           | Some t => now + t
                           end |} ]> CACHE.

End Cache.

(** ** Query resolution *)

Definition dquote : ascii := ascii_of_nat 34.
Definition squote : ascii := ascii_of_nat 39.

Definition startsWithChar (c : ascii) (s : string) : bool :=
  match s with
  | String d _ => Ascii.eqb c d
  | EmptyString => false
  end.

Definition cleanEnv (v : option string) : string :=
  match v with
  | None => Str.empty
  | Some v =>
      let s := Str.trim v in
      let s := if (startsWithChar dquote s && Str.endsWithChar dquote s)
                  || (startsWithChar squote s && Str.endsWithChar squote s)
               then Str.slice_1_m1 s else s in
      Str.trim s
  end.

(** [searchParams.get(name)]: the first value under that name. *)
Fixpoint params_get (name : string) (ps : list (string * string)) : option string :=
  match ps with
  | [] => None
  | (n, v) :: ps' => if String.eqb n name then Some v else params_get name ps'
  end.

(** [/^https?:\/\//i.test(s)] *)
Definition looks_like_url (s : string) : bool :=
  let l := Str.toLowerCase s in
  Str.startsWith "http://" l || Str.startsWith "https://" l.

Section Query.
Context {R : Runtime}.

(** The block under [if (/^https?:\/\//i.test(raw))]: [Some r] when it
    returns [r], [None] when control falls through to [return raw]. *)
Definition fromUrl (raw : string) : option string :=
  match urlSearchParams raw with
  | None => None
  | Some ps =>
      let filterId := params_get "filter" ps in
      if Str.truthy filterId && Str.all_digits (Str.or_else filterId Str.empty)
      then Some ("filter=" +:+ Str.or_else filterId Str.empty)
      else
        let jql := params_get "jql" ps in
        if Str.truthy jql then jql else None
  end.

Definition toJql (filterOrJql : option string) : string :=
  let raw := cleanEnv filterOrJql in
  if negb (Str.truthy (Some raw)) then Str.empty
  else if Str.all_digits raw then "filter=" +:+ raw
  else
    match (if looks_like_url raw then fromUrl raw else None) with
    | Some r => r
    | None => raw
    end.

End Query.

(** ** Request parameters *)

Definition digit_value (c : ascii) : Z := Z.of_nat (nat_of_ascii c) - 48.

(** The longest prefix of decimal digits, as an integer; NaN when there is
    no digit. *)
Fixpoint digits_prefix (s : string) (acc : Z) (seen : bool) : option Z :=
  match s with
  | String c s' =>
      if Str.is_digit c then digits_prefix s' (10 * acc + digit_value c) true
      else if seen then Some acc else None
  | EmptyString => if seen then Some acc else None
  end.

(** [parseInt(s, 10)]: leading white space, an optional sign, digits. *)
Definition parseInt10 (s : string) : option Z :=
  match Str.trimStart s with
  | String c s' =>
      if Ascii.eqb c "-" then option_map Z.opp (digits_prefix s' 0 false)
      else if Ascii.eqb c "+" then digits_prefix s' 0 false
      else digits_prefix (String c s') 0 false
  | EmptyString => None
  end.

(** [Math.min(parseInt(supplied || dflt, 10) || dfltN, cap)] *)
Definition intParam (supplied : option string) (dflt : string) (dfltN cap : Z) : Z :=
  Z.min (num_or (parseInt10 (Str.or_else supplied dflt)) dfltN) cap.

(** The query parameters as [searchParams.get] returns them. *)
Record request := {
  q_filter : option string;
  q_from : option string;
  q_to : option string;
  q_notFrom : option string;
  q_notTo : option string;
  q_since : option string;
  q_until : option string;
  q_limit : option string;
  q_maxIssues : option string;
  q_concurrency : option string;
  q_ttl : option string;
  q_discover : option string
}.

Definition limit_of (q : request) : Z := intParam (q_limit q) "20" 20 100.
Definition maxIssues_of (q : request) : Z := intParam (q_maxIssues q) "150" 150 1000.
Definition concurrencyParam_of (q : request) : Z := intParam (q_concurrency q) "0" 0 20.
(** in milliseconds *)
Definition ttl_of (q : request) : Z := intParam (q_ttl q) "60" 60 600 * 1000.

Definition criteria_of (q : request) : criteria :=
  {| fromName := q_from q; toName := q_to q;
     notFromName := q_notFrom q; notToName := q_notTo q;
     since := q_since q; until := q_until q |}.

(** ** Discovery mode ([discoverTransitionPairs], one-shot function only) *)

(** The separator of a pair key, U+2192, as its UTF-8 bytes. *)
Definition arrow : string :=
  String (ascii_of_nat 226) (String (ascii_of_nat 134)
    (String (ascii_of_nat 146) EmptyString)).

(** [s.split(sep)] for a non-empty [sep]; [skip] is the number of
    characters of a separator still to be passed over. *)
Fixpoint split_go (sep : string) (skip : nat) (cur : string) (s : string)
  : list string :=
  match s with
  | EmptyString => [cur]
  | String c s' =>
      match skip with
      | S k => split_go sep k cur s'
      | O =>
          if Str.startsWith sep s
          then cur :: split_go sep (String.length sep - 1) Str.empty s'
          else split_go sep 0 (cur +:+ String c EmptyString) s'
      end
  end.

Definition split (sep s : string) : list string := split_go sep 0 Str.empty s.

(** One entry [{ from, to, count }] of the discovery result. *)
Record pair_entry := {
  pe_from : option string;
  pe_to : option string;
  pe_count : Z
}.

(** A value inside a template literal: [undefined] prints as its name. *)
Definition template (o : option string) : string :=
  match o with
  | Some s => s
  | None => "undefined"
  end.

Definition pairKey (e : pair_entry) : string :=
  template (pe_from e) +:+ arrow +:+ template (pe_to e).

(** [const [from, to] = pair.split(arrow); return { from, to, count }] *)
Definition toPair (e : string * Z) : pair_entry :=
  let parts := split arrow (fst e) in
  {| pe_from := nth_error parts 0; pe_to := nth_error parts 1; pe_count := snd e |}.

Section Discovery.
Context {R : Runtime}.

(** The body of the loop over [histories] in [discoverTransitionPairs]. *)
Definition discoverHistory (since until : option string) (pairs : tally)
    (h : history) : tally :=
  if windowPasses since until (created h) then
    fold_left
      (fun cnt it =>
         match field it with
         | Some f =>
             if String.eqb f status
             then bump (fromValue it +:+ arrow +:+ toValue it) cnt
             else cnt
         | None => cnt
         end)
      (arr_or_empty (items h)) pairs
  else pairs.

Definition comparePairs (a b : pair_entry) : comparison :=
  match pe_count b - pe_count a ?= 0 with
  | Eq => localeCompare (pairKey a) (pairKey b)
  | c => c
  end.

Definition rankedPairs (pairs : tally) : list pair_entry :=
  sort_by comparePairs (map toPair pairs).

End Discovery.

(** ** Request handlers *)

Record env := {
  (** [JIRA_BASE_URL], [JIRA_EMAIL] and [JIRA_API_TOKEN] are all set. *)
  configured : bool;
  MOVERS_CONCURRENCY : option jsnum
}.

Record users_payload := {
  p_filter : option string;
  p_from : option string;
  p_to : option string;
  p_notFrom : option string;
  p_notTo : option string;
  p_since : option string;
  p_until : option string;
  totalIssues : Z;
  users : list (string * Z)
}.

Record transitions_payload := {
  t_filter : option string;
  t_since : option string;
  t_until : option string;
  t_totalIssues : Z;
  transitions : list pair_entry
}.

Inductive payload : Type :=
| Users (p : users_payload)
| Transitions (p : transitions_payload).

Inductive body : Type :=
| Error (msg : string)
| Result (p : payload).

Record response := {
  statusCode : Z;
  resp_body : body
}.

(** The process between requests: the cache, and the requests sent to the
    remote API so far. *)
Record world := {
  CACHE : gmap string (cache_entry payload);
  sent : list remote_call
}.

(** [v || null] *)
Definition or_null (v : option string) : option string :=
  if Str.truthy v then v else None.

Definition missing_config : string :=
  "Missing Jira configuration (JIRA_BASE_URL/JIRA_EMAIL/JIRA_API_TOKEN)".

Section Handlers.
Context {R : Runtime}.
Variable E : env.
Variable rem : remote.

(** [searchIssues(jql, max)]; [getAuthHeaders] throws before the request
    is sent when the configuration is incomplete. *)
Definition searchIssues (jql : string) (max : Z) (log : list remote_call)
  : outcome (list issue) * list remote_call :=
  if negb (configured E) then (Throw missing_config, log)
  else
    let log' := log ++ [CallSearch jql (Z.min max 1000)] in
    match searchResponse rem jql (Z.min max 1000) with
    | Throw e => (Throw e, log')
    | Ok res => (Ok (arr_or_empty res), log')
    end.

(** The limit that [countTransitionsByUser] hands to [mapLimit] in the
    run that serves the request [q]. It is read from the environment; of
    the request the handler passes on the filter criteria only, and
    [concurrencyParam] goes nowhere but into the cache key. *)
Definition poolLimit (q : request) : jsnum :=
  concurrency (MOVERS_CONCURRENCY E).

(** [countTransitionsByUser]: the tally over all issues, then the
    ranking. The issues are run in array order here; [mapLimit.step] gives
    the schedules of [mapLimit], and the ranking does not depend on the
    schedule. *)
Definition countTransitionsByUser (fuel : nat) (issues : list issue)
    (c : criteria) (log : list remote_call)
  : option (outcome (list (string * Z)) * list remote_call) :=
  match processAll rem (processHistory c) fuel issues
          {| counts := []; calls := log |} with
  | None => None
  | Some (Throw e, a) => Some (Throw e, calls a)
  | Some (Ok _, a) => Some (Ok (ranked (counts a)), calls a)
  end.

Definition discoverTransitionPairs (fuel : nat) (issues : list issue)
    (since until : option string) (log : list remote_call)
  : option (outcome (list pair_entry) * list remote_call) :=
  match processAll rem (discoverHistory since until) fuel issues
          {| counts := []; calls := log |} with
  | None => None
  | Some (Throw e, a) => Some (Throw e, calls a)
  | Some (Ok _, a) => Some (Ok (rankedPairs (counts a)), calls a)
  end.

Definition cacheKey_of (jql : string) (q : request) : string :=
  JSON_stringify
    {| k_jql := jql; k_from := q_from q; k_to := q_to q;
       k_notFrom := q_notFrom q; k_notTo := q_notTo q;
       k_since := q_since q; k_until := q_until q;
       k_limit := limit_of q; k_maxIssues := maxIssues_of q;
       k_concurrencyParam := concurrencyParam_of q |}.

Definition reply (code : Z) (b : body) : response :=
  {| statusCode := code; resp_body := b |}.

Definition users_of (q : request) (issues : list issue)
    (top : list (string * Z)) : payload :=
  Users {| p_filter := q_filter q;
           p_from := or_null (q_from q); p_to := or_null (q_to q);
           p_notFrom := or_null (q_notFrom q); p_notTo := or_null (q_notTo q);
           p_since := or_null (q_since q); p_until := or_null (q_until q);
           totalIssues := Z.of_nat (length issues);
           users := top |}.

(** [handleMovers] of the long-running server. [now] is the clock when
    the cache is read, [later] when the result is stored; [None] means
    that a pagination loop outlives [fuel]. Every exception is turned
    into a 500 by the [catch]. *)
Definition handleMovers (fuel : nat) (now later : Z) (q : request) (w : world)
  : option (response * world) :=
  if negb (Str.truthy (q_filter q))
  then Some (reply 400 (Error "Missing required query param: filter"), w)
  else
    let jql := toJql (q_filter q) in
    if negb (Str.truthy (Some jql))
    then Some (reply 400 (Error "Invalid filter/JQL"), w)
    else
      let cacheKey := cacheKey_of jql q in
      let (cached, C1) := cacheGet now cacheKey (CACHE w) in
      match cached with
      | Some p => Some (reply 200 (Result p), {| CACHE := C1; sent := sent w |})
      | None =>
          match searchIssues jql (maxIssues_of q) (sent w) with
          | (Throw e, s1) => Some (reply 500 (Error e), {| CACHE := C1; sent := s1 |})
          | (Ok issues, s1) =>
              match countTransitionsByUser fuel issues (criteria_of q) s1 with
              | None => None
              | Some (Throw e, s2) =>
                  Some (reply 500 (Error e), {| CACHE := C1; sent := s2 |})
              | Some (Ok results, s2) =>
                  let top := slice0 results (limit_of q) in
                  let p := users_of q issues top in
                  Some (reply 200 (Result p),
                        {| CACHE := cacheSet later cacheKey p (Some (ttl_of q)) C1;
                           sent := s2 |})
              end
          end
      end.

(** [exports.handler] of the one-shot function: the same, with the
    discovery branch. *)
Definition handler (fuel : nat) (now later : Z) (q : request) (w : world)
  : option (response * world) :=
  let discover := match q_discover q with
                  | Some d => String.eqb d "1"
                  | None => false
                  end in
  if negb (Str.truthy (q_filter q))
  then Some (reply 400 (Error "Missing required query param: filter"), w)
  else
    let jql := toJql (q_filter q) in
    if negb (Str.truthy (Some jql))
    then Some (reply 400 (Error "Invalid filter/JQL"), w)
    else
      let cacheKey := cacheKey_of jql q in
      let (cached, C1) := cacheGet now cacheKey (CACHE w) in
      match cached with
      | Some p => Some (reply 200 (Result p), {| CACHE := C1; sent := sent w |})
      | None =>
          match searchIssues jql (maxIssues_of q) (sent w) with
          | (Throw e, s1) => Some (reply 500 (Error e), {| CACHE := C1; sent := s1 |})
          | (Ok issues, s1) =>
              if discover then
                match discoverTransitionPairs fuel issues (q_since q) (q_until q) s1 with
                | None => None
                | Some (Throw e, s2) =>
                    Some (reply 500 (Error e), {| CACHE := C1; sent := s2 |})
                | Some (Ok pairs, s2) =>
                    let topPairs := slice0 pairs (Z.min (limit_of q) 100) in
                    let p := Transitions
                               {| t_filter := q_filter q;
                                  t_since := or_null (q_since q);
                                  t_until := or_null (q_until q);
                                  t_totalIssues := Z.of_nat (length issues);
                                  transitions := topPairs |} in
                    Some (reply 200 (Result p),
                          {| CACHE := cacheSet later cacheKey p (Some (ttl_of q)) C1;
                             sent := s2 |})
                end
              else
                match countTransitionsByUser fuel issues (criteria_of q) s1 with
                | None => None
                | Some (Throw e, s2) =>
                    Some (reply 500 (Error e), {| CACHE := C1; sent := s2 |})
                | Some (Ok results, s2) =>
                    let top := slice0 results (limit_of q) in
                    let p := users_of q issues top in
                    Some (reply 200 (Result p),
                          {| CACHE := cacheSet later cacheKey p (Some (ttl_of q)) C1;
                             sent := s2 |})
                end
          end
      end.

End Handlers.

(** ** Current counts: [fetchFilterCount] and [handleCounts] *)

Inductive api_version : Type := V3 | V2.

(** The count requests that leave the process:
    [/rest/api/<v>/search?jql=<jql>&maxResults=0]. *)
Inductive count_call : Type :=
| CallCount (v : api_version) (jql : string).

(** What [fetchJSON] gives for a count request: [Ok (Some n)] when
    [json.total] is the number [n], [Ok None] when it is not a number,
    [Throw] when the request or the parsing fails. *)
Definition count_remote : Type := api_version -> string -> outcome (option Z).

(** The configuration that the counts endpoint reads at start-up, each
    string already through [cleanEnv]. *)
Record counts_config := {
  (** [JIRA_BASE_URL], [JIRA_EMAIL] and [JIRA_API_TOKEN] are all set. *)
  cc_configured : bool;
  JIRA_FILTER_QA_ID : string;
  JIRA_FILTER_DEV_ID : string;
  JIRA_DEV_TODAY : string;
  JIRA_QA_TODAY : string;
  JIRA_PRE_DEV : string;
  JIRA_PRE_QA : string;
  JIRA_DEPLOYMENTREADY : string;
  INITIAL_QA : jsnum;
  INITIAL_DEV : jsnum;
  REFRESH_SECONDS : jsnum
}.

(** The body of the counts response; an [undefined] field is [None]. *)
Record counts_payload := {
  c_qa : option Z;
  c_dev : option Z;
  c_devToday : option Z;
  c_qaToday : option Z;
  c_preDev : option Z;
  c_preQa : option Z;
  c_deploymentReady : option Z;
  c_initialQa : jsnum;
  c_initialDev : jsnum;
  c_refreshSeconds : jsnum;
  c_error : option string
}.

Definition nonempty (s : string) : bool := Str.truthy (Some s).

(** [Promise.all] on settled tasks: the values in order when every task
    is fulfilled, the reasons of the rejected ones otherwise. *)
Fixpoint all_settled {A} (os : list (outcome A)) : list A + list string :=
  match os with
  | [] => inl []
  | o :: os' =>
      match o, all_settled os' with
      | Ok a, inl vs => inl (a :: vs)
      | Ok _, inr es => inr es
      | Throw e, inl _ => inr [e]
      | Throw e, inr es => inr (e :: es)
      end
  end.

(** [cond ? results[idx++] : undefined]: the value and the next index. *)
Definition next_result (cond : bool) (results : list Z) (idx : nat)
  : option Z * nat :=
  if cond then (nth_error results idx, S idx) else (None, idx).

Section Counts.
Context {R : Runtime}.
Variable K : counts_config.
Variable rem : count_remote.
(** Which rejection [Promise.all] reports when several tasks fail: the
    one that happens first. *)
Variable first_rejection : list string -> string.

(** [fetchFilterCount(filterOrJql)]: the count or the exception, and the
    requests made. *)
Definition fetchFilterCount (filterOrJql : string)
  : outcome Z * list count_call :=
  if negb (cc_configured K) || negb (nonempty filterOrJql)
  then (Throw "Missing Jira config or filter/JQL", [])
  else
    let jql := toJql (Some filterOrJql) in
    if negb (nonempty jql) then (Throw "Empty JQL", [])
    else
      match rem V3 jql with
      | Ok (Some total) => (Ok total, [CallCount V3 jql])
      | _ =>
          match rem V2 jql with
          | Ok (Some total) => (Ok total, [CallCount V3 jql; CallCount V2 jql])
          | Ok None => (Throw "Unexpected Jira v2 response (no total)",
                        [CallCount V3 jql; CallCount V2 jql])
          | Throw e => (Throw e, [CallCount V3 jql; CallCount V2 jql])
          end
      end.

(** The filters whose counts [handleCounts] asks for, in the order of
    [tasks]. *)
Definition count_tasks : list string :=
  [JIRA_FILTER_QA_ID K; JIRA_FILTER_DEV_ID K]
  ++ (if nonempty (JIRA_DEV_TODAY K) then [JIRA_DEV_TODAY K] else [])
  ++ (if nonempty (JIRA_QA_TODAY K) then [JIRA_QA_TODAY K] else [])
  ++ (if nonempty (JIRA_PRE_DEV K) then [JIRA_PRE_DEV K] else [])
  ++ (if nonempty (JIRA_PRE_QA K) then [JIRA_PRE_QA K] else [])
  ++ (if nonempty (JIRA_DEPLOYMENTREADY K) then [JIRA_DEPLOYMENTREADY K] else []).

(** The body sent from the [catch] of [handleCounts]. *)
Definition degraded (e : string) : counts_payload :=
  {| c_qa := Some 0; c_dev := Some 0;
     c_devToday := None; c_qaToday := None; c_preDev := None;
     c_preQa := None; c_deploymentReady := None;
     c_initialQa := INITIAL_QA K; c_initialDev := INITIAL_DEV K;
     c_refreshSeconds := REFRESH_SECONDS K; c_error := Some e |}.

(** [handleCounts] of the long-running server: the status, the body and
    the requests made. Every task is started before any is awaited, so
    every task makes its requests whether or not another one fails. *)
Definition handleCounts : Z * counts_payload * list count_call :=
  let runs := map fetchFilterCount count_tasks in
  let log := concat (map snd runs) in
  match all_settled (map fst runs) with
  | inr es => (200, degraded (first_rejection es), log)
  | inl results =>
      let qa := nth_error results 0 in
      let dev := nth_error results 1 in
      let idx := 2%nat in
      let (devToday, idx) := next_result (nonempty (JIRA_DEV_TODAY K)) results idx in
      let (qaToday, idx) := next_result (nonempty (JIRA_QA_TODAY K)) results idx in
      let (preDev, idx) := next_result (nonempty (JIRA_PRE_DEV K)) results idx in
      let (preQa, idx) := next_result (nonempty (JIRA_PRE_QA K)) results idx in
      let (deploymentReady, idx) :=
        next_result (nonempty (JIRA_DEPLOYMENTREADY K)) results idx in
      (200,
       {| c_qa := qa; c_dev := dev;
          c_devToday := devToday; c_qaToday := qaToday;
          c_preDev := preDev; c_preQa := preQa;
          c_deploymentReady := deploymentReady;
          c_initialQa := INITIAL_QA K; c_initialDev := INITIAL_DEV K;
          c_refreshSeconds := REFRESH_SECONDS K; c_error := None |},
       log)
  end.

End Counts.

(** ** Filter links: [buildFilterInfo] *)

Record filter_info := {
  fi_label : string;
  fi_url : string;
  fi_text : string
}.

(** [s.replace(/\/$/, '')]: one trailing slash less. *)
Definition strip_slash (s : string) : string :=
  if Str.endsWithChar "/" s then Str.drop_last s else s.

(** The start-up rule for [JIRA_BASE_URL]: a value without a scheme gets
    [https://]. *)
Definition with_scheme (base : string) : string :=
  if nonempty base && negb (looks_like_url base) then "https://" +:+ base
  else base.

Fixpoint str_take (n : nat) (s : string) : string :=
  match n, s with
  | S n', String c s' => String c (str_take n' s')
  | _, _ => EmptyString
  end.

Fixpoint str_drop (n : nat) (s : string) : string :=
  match n, s with
  | S n', String _ s' => str_drop n' s'
  | _, _ => s
  end.

(** U+2026 as its UTF-8 bytes. *)
Definition ellipsis : string :=
  String (ascii_of_nat 226) (String (ascii_of_nat 128)
    (String (ascii_of_nat 166) EmptyString)).

Section FilterInfo.
Context {R : Runtime}.
(** [encodeURIComponent] *)
Variable encodeURIComponent : string -> string.
(** [JIRA_BASE_URL] after start-up *)
Variable JIRA_BASE_URL : string.

Definition buildFilterInfo (label filterOrJql : string) : filter_info :=
  let base := strip_slash JIRA_BASE_URL in
  let jqlOrFilter := toJql (Some filterOrJql) in
  if negb (nonempty base) || negb (nonempty jqlOrFilter)
  then {| fi_label := label; fi_url := EmptyString; fi_text := EmptyString |}
  else if Str.startsWith "filter=" jqlOrFilter then
    let id := str_drop 7 jqlOrFilter in
    {| fi_label := label;
       fi_url := base +:+ "/issues/?filter=" +:+ encodeURIComponent id;
       fi_text := "Filter " +:+ id |}
  else
    {| fi_label := label;
       fi_url := base +:+ "/issues/?jql=" +:+ encodeURIComponent jqlOrFilter;
       fi_text := "JQL (" +:+ str_take 80 jqlOrFilter
                  +:+ (if Nat.ltb 80 (String.length jqlOrFilter)
                       then ellipsis else EmptyString)
                  +:+ ")" |}.

End FilterInfo.

(** ** Environment file: [loadEnv] *)

Definition LF : ascii := ascii_of_nat 10.
Definition CR : ascii := ascii_of_nat 13.

Definition snoc (s : string) (c : ascii) : string := s +:+ String c EmptyString.

(** [text.split(/\r?\n/)]; [cur] is the line being read. *)
Fixpoint split_lines (cur : string) (s : string) : list string :=
  match s with
  | EmptyString => [cur]
  | String c s' =>
      if Ascii.eqb c LF then cur :: split_lines EmptyString s'
      else if Ascii.eqb c CR then
        match s' with
        | String d s'' =>
            if Ascii.eqb d LF then cur :: split_lines EmptyString s''
            else split_lines (snoc cur c) s'
        | EmptyString => split_lines (snoc cur c) s'
        end
      else split_lines (snoc cur c) s'
  end.

(** [s.indexOf(c)] with the two slices around it: the text before the
    first [c] and the text after it; [None] is [-1]. *)
Fixpoint cut_at (c : ascii) (s : string) : option (string * string) :=
  match s with
  | EmptyString => None
  | String d s' =>
      if Ascii.eqb d c then Some (EmptyString, s')
      else match cut_at c s' with
           | Some (before, after) => Some (String d before, after)
           | None => None
           end
  end.

(** One line of the file: the key and the value it defines, if any. *)
Definition parseEnvLine (line : string) : option (string * string) :=
  let trimmed := Str.trim line in
  if negb (nonempty trimmed) || Str.startsWith "#" trimmed then None
  else
    match cut_at "=" trimmed with
    | None => None
    | Some (k, v) => Some (Str.trim k, Str.trim v)
    end.

(** [if (!(key in process.env)) process.env[key] = value] *)
Definition set_if_absent (env : gmap string string) (kv : string * string)
  : gmap string string :=
  match env !! kv.1 with
  | Some _ => env
  | None => <[ kv.1 := kv.2 ]> env
  end.

Definition loadEnv_line (env : gmap string string) (line : string)
  : gmap string string :=
  match parseEnvLine line with
  | Some kv => set_if_absent env kv
  | None => env
  end.

(** [loadEnv]: [text = None] when the file cannot be read. *)
Definition loadEnv (text : option string) (env : gmap string string)
  : gmap string string :=
  match text with
  | None => env
  | Some t => fold_left loadEnv_line (split_lines EmptyString t) env
  end.

(** ** Countdown of the dashboard: [tick] *)

(** The four numbers that [tick] displays for [diff] milliseconds:
    [Math.floor] is the floor division, [%] the remainder with the sign of
    the dividend. *)
Definition countdown (diff : Z) : Z * Z * Z * Z :=
  let sec := diff / 1000 in
  let days := sec / 86400 in
  let hours := Z.rem sec 86400 / 3600 in
  let mins := Z.rem sec 3600 / 60 in
  let secs := Z.rem sec 60 in
  (days, hours, mins, secs).

(** [s.padStart(2, '0')] *)
Definition padStart2 (s : string) : string :=
  match String.length s with
  | O => "00"
  | S O => "0" +:+ s
  | _ => s
  end.

(** [String(n).padStart(2, '0')] *)
Definition two_digits (n : Z) : string := padStart2 (pretty n).

(** ** A runtime to evaluate the functions on concrete inputs *)

Module TestRuntime.

(** The instants of a few ISO dates, as [Date.prototype.getTime] gives
    them. *)
Definition instant (s : string) : option Z :=
  if String.eqb s "2024-01-01T00:00:00.000Z" then Some 1704067200000
  else if String.eqb s "2024-01-15T12:00:00.000Z" then Some 1705320000000
  else if String.eqb s "2024-01-31T23:59:59.999Z" then Some 1706745599999
  else if String.eqb s "2024-02-01T00:00:00.000Z" then Some 1706745600000
  else None.

Definition name_value (kv : string) : string * string :=
  match split "=" kv with
  | n :: v :: _ => (n, v)
  | [n] => (n, Str.empty)
  | [] => (Str.empty, Str.empty)
  end.

(** The query of a URL that has no escapes and no fragment. *)
Definition query_of (s : string) : option (list (string * string)) :=
  match split "?" s with
  | _ :: q :: _ => Some (map name_value (split "&" q))
  | _ => Some []
  end.

Definition show (o : option string) : string :=
  match o with
  | Some s => "'" +:+ s +:+ "'"
  | None => "null"
  end.

Definition stringify (k : cache_key) : string :=
  k_jql k +:+ "|" +:+ show (k_from k) +:+ "|" +:+ show (k_to k) +:+ "|" +:+
  show (k_notFrom k) +:+ "|" +:+ show (k_notTo k) +:+ "|" +:+
  show (k_since k) +:+ "|" +:+ show (k_until k) +:+ "|" +:+
  pretty (k_limit k) +:+ "|" +:+ pretty (k_maxIssues k) +:+ "|" +:+
  pretty (k_concurrencyParam k).

Definition runtime : Runtime :=
  {| dateTime := instant;
     localeCompare := String.compare;
     urlSearchParams := query_of;
     JSON_stringify := stringify |}.

Definition alice : author :=
  {| displayName := Some "alice"; name := None; accountId := None |}.

Definition qa_done : item :=
  {| field := Some "status"; fromString := Some "In QA";
     toString := Some "Done" |}.

Definition one_history : history :=
  {| h_author := Some alice; created := Some "2024-01-15T12:00:00.000Z";
     items := Some [qa_done] |}.

(** A remote whose changelog grows as fast as it is read: every page
    holds one history and reports a total two past the offset. *)
Definition growing : remote :=
  {| searchResponse := fun _ _ => Ok (Some []);
     changelogResponse := fun _ _ s _ =>
       Ok {| total := Some (Z.abs s + 2); values := Some [one_history] |} |}.

Definition bob : author :=
  {| displayName := None; name := Some "bob"; accountId := None |}.

Definition open_qa : item :=
  {| field := Some "status"; fromString := Some "Open";
     toString := Some " In QA " |}.

Definition renamed : item :=
  {| field := Some "summary"; fromString := Some "In QA";
     toString := Some "Done" |}.

Definition by_alice : history := one_history.

Definition by_bob : history :=
  {| h_author := Some bob; created := Some "2024-01-31T23:59:59.999Z";
     items := Some [renamed; open_qa] |}.

Definition issue_B : issue := {| key := Some "BUG-2"; id := "10002" |}.
Definition issue_C : issue := {| key := Some "BUG-3"; id := "10003" |}.

(** Three issues: the first with one status change by alice, the second
    with one by alice and one by bob on two pages, the third with none.
    The search is asked for [filter=100]. *)
Definition three_issues : remote :=
  {| searchResponse := fun jql _ =>
       if String.eqb jql "filter=100"
       then Ok (Some [ {| key := Some "BUG-1"; id := "10001" |};
                       issue_B; issue_C ])
       else Throw "HTTP 400: bad JQL";
     changelogResponse := fun issueId _ s _ =>
       if String.eqb issueId "10001" then
         Ok {| total := Some 1;
               values := Some (if s =? 0 then [by_alice] else []) |}
       else if String.eqb issueId "10002" then
         Ok {| total := Some 2;
               values := Some (if s =? 0 then [by_alice]
                               else if s =? 1 then [by_bob] else []) |}
       else Ok {| total := None; values := None |} |}.

Definition qa_to_done : request :=
  {| q_filter := Some "100"; q_from := Some "in qa"; q_to := Some "DONE";
     q_notFrom := None; q_notTo := None; q_since := None; q_until := None;
     q_limit := None; q_maxIssues := None; q_concurrency := None;
     q_ttl := Some "0"; q_discover := None |}.

Definition discover_request : request :=
  {| q_filter := Some "100"; q_from := None; q_to := None;
     q_notFrom := None; q_notTo := None; q_since := None; q_until := None;
     q_limit := None; q_maxIssues := None; q_concurrency := None;
     q_ttl := None; q_discover := Some "1" |}.

Definition since_february : request :=
  {| q_filter := Some "100"; q_from := Some "In QA"; q_to := Some "Done";
     q_notFrom := None; q_notTo := None;
     q_since := Some "2024-02-01T00:00:00.000Z"; q_until := None;
     q_limit := None; q_maxIssues := None; q_concurrency := None;
     q_ttl := None; q_discover := None |}.

Definition blank_request : request :=
  {| q_filter := Some "   "; q_from := None; q_to := None;
     q_notFrom := None; q_notTo := None; q_since := None; q_until := None;
     q_limit := Some "0"; q_maxIssues := Some "abc"; q_concurrency := None;
     q_ttl := Some "0"; q_discover := None |}.

Definition configured_env : env :=
  {| configured := true; MOVERS_CONCURRENCY := None |}.

(** [MOVERS_CONCURRENCY=2] *)
Definition limit_two : env :=
  {| configured := true; MOVERS_CONCURRENCY := Some (of_Z 2) |}.

Definition fresh : world := {| CACHE := ∅; sent := [] |}.

Definition january : criteria :=
  {| fromName := Some "in qa"; toName := None; notFromName := None;
     notToName := Some "open";
     since := Some "2024-01-01T00:00:00.000Z";
     until := Some "2024-01-31T23:59:59.999Z" |}.

Definition no_criteria : criteria :=
  {| fromName := None; toName := None; notFromName := None;
     notToName := None; since := None; until := None |}.

Definition issue_A : issue := {| key := Some "BUG-1"; id := "10001" |}.

Definition nothing_yet : agg := {| counts := []; calls := [] |}.

(** Two of three issues are in the pool, the first of them being
    paginated, under a limit configured as 2. *)
Definition two_spawned : mapLimit.pool :=
  {| mapLimit.todo := [issue_C];
     mapLimit.pending := [(issue_A, mapLimit.Running); (issue_B, mapLimit.Created)];
     mapLimit.at_loop := mapLimit.AwaitRace false |}.

End TestRuntime.

(** ** Further definitions used to state and to evaluate the properties *)

(** The number of events of [evs] that the transition filter counts for
    the author [k]. *)
Definition credited {R : Runtime} (c : criteria) (k : string)
    (evs : list (history * item)) : Z :=
  Z.of_nat (length (List.filter
                      (fun ev => eventMatches c (fst ev) (snd ev)
                                 && String.eqb (authorName (fst ev)) k)
                      evs)).

(** A status name without the first byte of the pair separator; every
    ASCII name is one. *)
Definition arrow_free (s : string) : bool :=
  Str.all (fun c => negb (Ascii.eqb c (ascii_of_nat 226))) s.

(** Every value of the tally is at least 1. *)
Definition positive_tally (m : tally) : Prop :=
  forall k v, tally_get k m = Some v -> 1 <= v.

(** The field [o] of the counts body stands for the filter [f]: it holds
    the count fetched for [f] when [f] is configured and is absent when it
    is not. *)
Definition reports {R : Runtime} (K : counts_config) (rem : count_remote)
    (f : string) (o : option Z) : Prop :=
  match o with
  | Some n => nonempty f = true /\ fst (fetchFilterCount K rem f) = Ok n
  | None => nonempty f = false
  end.

Module MoreData.

(** A remote that serves one changelog [L] for every issue, at most
    [cap] histories per page, and reports its length as the total. *)
Definition paged (cap : nat) (L : list history) : remote :=
  {| searchResponse := fun _ _ => Ok None;
     changelogResponse := fun _ _ s m =>
       Ok {| total := Some (Z.of_nat (length L));
             values := Some (take (Nat.min (Z.to_nat m) cap)
                                  (drop (Z.to_nat s) L)) |} |}.

Definition five_histories : list history :=
  [TestRuntime.by_alice; TestRuntime.by_bob; TestRuntime.by_alice;
   TestRuntime.by_alice; TestRuntime.by_bob].

(** Version 3 of the search API is gone, version 2 answers. *)
Definition only_v2 : count_remote :=
  fun v jql =>
    match v with
    | V3 => Throw "HTTP 410: gone"
    | V2 => if String.eqb jql "filter=14621" then Ok (Some 33)
            else if String.eqb jql "filter=10930" then Ok (Some 71)
            else if String.eqb jql "project = BUG" then Ok (Some 4)
            else Ok None
    end.

Definition board : counts_config :=
  {| cc_configured := true;
     JIRA_FILTER_QA_ID := "14621"; JIRA_FILTER_DEV_ID := "10930";
     JIRA_DEV_TODAY := EmptyString; JIRA_QA_TODAY := "project = BUG";
     JIRA_PRE_DEV := EmptyString; JIRA_PRE_QA := EmptyString;
     JIRA_DEPLOYMENTREADY := "10930";
     INITIAL_QA := of_Z 33; INITIAL_DEV := of_Z 71;
     REFRESH_SECONDS := of_Z 60 |}.

Definition first_of (es : list string) : string :=
  match es with
  | e :: _ => e
  | [] => EmptyString
  end.

Definition env_file : string :=
  String.concat (String LF EmptyString)
    ["# Jira"; "JIRA_EMAIL = bot@example.com"; "";
     "PORT=5173" +:+ String CR EmptyString; "PORT=8080"; "no equals sign"].

Definition process_env : gmap string string :=
  {[ "JIRA_EMAIL" := "me@example.com" ]}.

(** A filter id that the remote of [TestRuntime.three_issues] rejects. *)
Definition unknown_filter : request :=
  {| q_filter := Some "999"; q_from := None; q_to := None;
     q_notFrom := None; q_notTo := None; q_since := None; q_until := None;
     q_limit := None; q_maxIssues := None; q_concurrency := None;
     q_ttl := None; q_discover := None |}.

(** Every status change counts, and only the first user is asked for. *)
Definition top_one : request :=
  {| q_filter := Some "100"; q_from := None; q_to := None;
     q_notFrom := None; q_notTo := None; q_since := None; q_until := None;
     q_limit := Some "1"; q_maxIssues := None; q_concurrency := None;
     q_ttl := None; q_discover := None |}.

(** No [JIRA_BASE_URL], [JIRA_EMAIL] or [JIRA_API_TOKEN]. *)
Definition bare_env : env :=
  {| configured := false; MOVERS_CONCURRENCY := None |}.

(** [JIRA_DEV_TODAY] holds a JQL that the remote answers without a
    total. *)
Definition broken_board : counts_config :=
  {| cc_configured := true;
     JIRA_FILTER_QA_ID := "14621"; JIRA_FILTER_DEV_ID := "10930";
     JIRA_DEV_TODAY := "status = Broken"; JIRA_QA_TODAY := "project = BUG";
     JIRA_PRE_DEV := EmptyString; JIRA_PRE_QA := EmptyString;
     JIRA_DEPLOYMENTREADY := EmptyString;
     INITIAL_QA := of_Z 33; INITIAL_DEV := of_Z 71;
     REFRESH_SECONDS := of_Z 60 |}.

(** A process whose cache holds an entry that never expires. *)
Definition warm : world :=
  {| CACHE := cacheSet 0 "other"
                (Users {| p_filter := None; p_from := None; p_to := None;
                          p_notFrom := None; p_notTo := None;
                          p_since := None; p_until := None;
                          totalIssues := 0; users := [] |})
                None ∅;
     sent := [] |}.

End MoreData.

(** * Properties *)

(** ** Strings *)

Module StrFacts.
Import Str.

Lemma eqb_ci_spec a b : eqb_ci a b = true <-> eq_ci a b.
Proof. unfold eqb_ci, eq_ci. apply String.eqb_eq. Qed.

Lemma eqb_ci_false a b : eqb_ci a b = false <-> ~ eq_ci a b.
Proof. unfold eqb_ci, eq_ci. apply String.eqb_neq. Qed.

Lemma truthy_nonempty v : truthy (Some v) = true <-> v <> EmptyString.
Proof. destruct v; simpl; split; congruence. Qed.

Lemma startsWith_cons a p b s :
  startsWith (String a p) (String b s) = Ascii.eqb a b && startsWith p s.
Proof. reflexivity. Qed.

Lemma trimStart_blank s : all is_space s = true -> trimStart s = EmptyString.
Proof.
  induction s as [|c s IH]; simpl; [reflexivity|].
  intros H. apply andb_prop in H as [Hc Hs]. rewrite Hc. auto.
Qed.

Lemma trim_blank s : all is_space s = true -> trim s = EmptyString.
Proof. intros H. unfold trim. rewrite trimStart_blank by exact H. reflexivity. Qed.

Lemma digit_not_space c : is_digit c = true -> is_space c = false.
Proof.
  unfold is_digit, is_space. intros H.
  apply andb_prop in H as [H1 H2].
  apply Nat.leb_le in H1. apply Nat.leb_le in H2.
  apply orb_false_intro.
  - apply Nat.eqb_neq. lia.
  - apply andb_false_intro2. apply Nat.leb_gt. lia.
Qed.

Lemma trimEnd_digits s : all is_digit s = true -> trimEnd s = s.
Proof.
  induction s as [|c s IH]; simpl; [reflexivity|].
  intros H. apply andb_prop in H as [Hc Hs].
  rewrite (IH Hs). rewrite (digit_not_space c Hc). destruct s; reflexivity.
Qed.

Lemma trim_digits s : all is_digit s = true -> trim s = s.
Proof.
  intros H. unfold trim.
  assert (trimStart s = s) as ->.
  { destruct s as [|c s]; simpl; [reflexivity|].
    simpl in H. apply andb_prop in H as [Hc _].
    now rewrite (digit_not_space c Hc). }
  now apply trimEnd_digits.
Qed.

End StrFacts.

(** ** Transition filter *)

Section FilterFacts.
Context {R : Runtime}.
Import Str StrFacts.

Lemma equalsOk_spec want v :
  equalsOk want v = true <->
  (forall w, want = Some w -> w <> EmptyString -> eq_ci v w).
Proof.
  unfold equalsOk. destruct want as [[|c s]|]; simpl.
  - split; [intros _ w [= <-] Hw; congruence | reflexivity].
  - rewrite eqb_ci_spec. split.
    + intros H w [= <-] _. exact H.
    + intros H. apply H; [reflexivity | discriminate].
  - split; [intros _ w [=] | reflexivity].
Qed.

Lemma differsOk_spec avoid v :
  differsOk avoid v = true <->
  (forall w, avoid = Some w -> w <> EmptyString -> ~ eq_ci v w).
Proof.
  unfold differsOk. destruct avoid as [[|c s]|]; simpl.
  - split; [intros _ w [= <-] Hw; congruence | reflexivity].
  - rewrite negb_true_iff, eqb_ci_false. split.
    + intros H w [= <-] _. exact H.
    + intros H. apply H; [reflexivity | discriminate].
  - split; [intros _ w [=] | reflexivity].
Qed.

Lemma itemMatches_spec c it :
  itemMatches c it = true <->
  field it = Some status /\
  equalsOk (fromName c) (fromValue it) = true /\
  differsOk (notFromName c) (fromValue it) = true /\
  equalsOk (toName c) (toValue it) = true /\
  differsOk (notToName c) (toValue it) = true.
Proof.
  unfold itemMatches, fromOk, toOk. destruct (field it) as [f|].
  - destruct (String.eqb_spec f status) as [-> | Hne].
    + rewrite !andb_true_iff. intuition.
    + split; [discriminate | intros [[= E] _]; congruence].
  - split; [discriminate | intros [[=] _]].
Qed.


Lemma withinWindow_spec ts since until :
  withinWindow ts since until = true <->
  exists t, getTime ts = Some t /\
    (forall lo, truthy since = true -> getTime since = Some lo -> lo <= t) /\
    (forall hi, truthy until = true -> getTime until = Some hi -> t <= hi).
Proof.
  unfold withinWindow. destruct (getTime ts) as [t|].
  2: { split; [discriminate | intros (t & [=] & _)]. }
  unfold num_lt, num_gt.
  destruct (truthy since), (getTime since) as [lo|],
           (truthy until), (getTime until) as [hi|]; simpl;
    repeat match goal with
           | |- context [?a <? ?b] => destruct (Z.ltb_spec a b)
           end;
    split; try discriminate;
    try (intros _; exists t; repeat split; intros; simplify_eq; lia);
    intros (t' & [= <-] & Hlo & Hhi);
    try (specialize (Hlo _ eq_refl eq_refl));
    try (specialize (Hhi _ eq_refl eq_refl)); lia.
Qed.

(** C2. With neither [since] nor [until] supplied every history passes
    the guard, whatever its timestamp, parseable or not. With at least
    one bound supplied the history passes exactly when its timestamp is a
    valid instant [t] with [since <= t] and [t <= until] for each
    supplied bound, both ends included; a supplied bound that is itself
    not a valid date puts no limit on its side. *)
Theorem time_window_check (since until ts : option string) :
  (truthy since = false -> truthy until = false ->
     windowPasses since until ts = true) /\
  (truthy since = true \/ truthy until = true ->
     (windowPasses since until ts = true <->
      exists t, getTime ts = Some t /\
        (forall lo, truthy since = true -> getTime since = Some lo -> lo <= t) /\
        (forall hi, truthy until = true -> getTime until = Some hi -> t <= hi))).
Proof.
  unfold windowPasses. split.
  - intros -> ->. reflexivity.
  - intros H.
    assert (truthy since || truthy until = true) as ->
      by (destruct H as [-> | ->]; [reflexivity | apply orb_true_r]).
    apply withinWindow_spec.
Qed.

End FilterFacts.

(** ** Sorting with a comparator *)

Section SortFacts.
Context {A : Type} (cmp : A -> A -> comparison).
Hypothesis cmp_sym : forall a b, cmp b a = CompOpp (cmp a b).
Hypothesis cmp_trans : forall a b c,
    cmp a b <> Gt -> cmp b c <> Gt -> cmp a c <> Gt.

Lemma insert_by_Permutation x l : Permutation (insert_by cmp x l) (x :: l).
Proof.
  induction l as [|y l IH]; simpl; [reflexivity|].
  destruct (cmp x y); try reflexivity.
  rewrite IH. apply perm_swap.
Qed.

Lemma sort_by_Permutation l : Permutation (sort_by cmp l) l.
Proof.
  induction l as [|x l IH]; simpl; [reflexivity|].
  rewrite insert_by_Permutation. now apply perm_skip.
Qed.

Lemma insert_by_sorted x l :
  StronglySorted (le_by cmp) l -> StronglySorted (le_by cmp) (insert_by cmp x l).
Proof.
  induction 1 as [|y l Hs IH Hall]; simpl.
  - repeat constructor.
  - destruct (cmp x y) eqn:E.
    + constructor; [now constructor|].
      constructor; [unfold le_by; congruence|].
      eapply Forall_impl; [exact Hall|].
      intros z Hz. apply (cmp_trans x y z); [congruence | exact Hz].
    + constructor; [now constructor|].
      constructor; [unfold le_by; congruence|].
      eapply Forall_impl; [exact Hall|].
      intros z Hz. apply (cmp_trans x y z); [congruence | exact Hz].
    + constructor; [exact IH|].
      rewrite insert_by_Permutation. constructor; [|exact Hall].
      unfold le_by. rewrite cmp_sym, E. discriminate.
Qed.

Lemma sort_by_sorted l : StronglySorted (le_by cmp) (sort_by cmp l).
Proof.
  induction l as [|x l IH]; simpl; [constructor | now apply insert_by_sorted].
Qed.

(** A comparator that only equates equal elements sorts every
    arrangement of the same elements to the same list. *)
Lemma sort_by_unique l1 l2 :
  (forall a b, cmp a b = Eq -> a = b) ->
  Permutation l1 l2 -> sort_by cmp l1 = sort_by cmp l2.
Proof.
  intros Heq HP.
  assert (AntiSymm (=) (le_by cmp)) as Hanti.
  { intros a b Hab Hba. unfold le_by in *. rewrite cmp_sym in Hba.
    destruct (cmp a b) eqn:E; simpl in *; try congruence. now apply Heq. }
  apply (StronglySorted_unique (le_by cmp)); try apply sort_by_sorted.
  now rewrite !sort_by_Permutation.
Qed.

End SortFacts.

Lemma StronglySorted_weaken {A} (P Q : A -> A -> Prop) (l : list A) :
  (forall a b, P a b -> Q a b) -> StronglySorted P l -> StronglySorted Q l.
Proof.
  intros HPQ. induction 1 as [|x l Hs IH Hall]; constructor; auto.
  eapply Forall_impl; [exact Hall | auto].
Qed.

Lemma StronglySorted_firstn {A} (P : A -> A -> Prop) (k : nat) (l : list A) :
  StronglySorted P l -> StronglySorted P (firstn k l).
Proof.
  intros H. rewrite <- (take_drop k l) in H.
  now apply StronglySorted_app_1_l in H.
Qed.

(** ** Ranking *)

Section RankingFacts.
Context {R : Runtime} {C : Collation R}.

(** The order that a count-then-key comparator induces, for any way
    [cnt], [k] of reading the count and the key of an entry. *)
Section ByCountThenKey.
Context {A : Type} (cnt : A -> Z) (k : A -> string).

Lemma byCountThenKey_le a b :
  byCountThenKey cnt k a b <> Gt <->
  cnt b < cnt a \/ (cnt a = cnt b /\ localeCompare (k a) (k b) <> Gt).
Proof.
  unfold byCountThenKey.
  destruct (Z.compare_spec (cnt b - cnt a) 0); split; intros H';
    try congruence.
  - right. split; [lia | exact H'].
  - destruct H' as [? | [_ ?]]; [lia | assumption].
  - left. lia.
  - destruct H' as [? | [? _]]; lia.
Qed.

Lemma byCountThenKey_sym a b :
  byCountThenKey cnt k b a = CompOpp (byCountThenKey cnt k a b).
Proof.
  unfold byCountThenKey.
  destruct (Z.compare_spec (cnt b - cnt a) 0),
           (Z.compare_spec (cnt a - cnt b) 0); simpl;
    try lia; try reflexivity.
  apply collate_sym.
Qed.

Lemma byCountThenKey_trans a b c :
  byCountThenKey cnt k a b <> Gt -> byCountThenKey cnt k b c <> Gt ->
  byCountThenKey cnt k a c <> Gt.
Proof.
  rewrite !byCountThenKey_le.
  intros [? | [? ?]] [? | [? ?]]; try (left; lia).
  right. split; [lia | now apply (collate_trans _ (k b))].
Qed.

Lemma byCountThenKey_sorted l :
  StronglySorted
    (fun a b => cnt b < cnt a \/
                (cnt a = cnt b /\ localeCompare (k a) (k b) <> Gt))
    (sort_by (byCountThenKey cnt k) l).
Proof.
  eapply (StronglySorted_weaken (fun a b => byCountThenKey cnt k a b <> Gt)).
  - intros a b. apply byCountThenKey_le.
  - apply sort_by_sorted;
      [apply byCountThenKey_sym | apply byCountThenKey_trans].
Qed.

End ByCountThenKey.

Lemma compareEntries_byCount :
  compareEntries = byCountThenKey snd fst.
Proof. reflexivity. Qed.

Lemma comparePairs_byCount :
  comparePairs = byCountThenKey pe_count pairKey.
Proof. reflexivity. Qed.

Lemma compareEntries_eq a b :
  (forall x y, localeCompare x y = Eq -> x = y) ->
  compareEntries a b = Eq -> a = b.
Proof.
  intros Hsep. unfold compareEntries.
  destruct (Z.compare_spec (snd b - snd a) 0); try discriminate.
  intros Hk. apply Hsep in Hk.
  destruct a, b; simpl in *. f_equal; [exact Hk | lia].
Qed.

Lemma length_slice0 {A} (l : list A) (e : Z) :
  0 <= e -> Z.of_nat (length (slice0 l e)) = Z.min e (Z.of_nat (length l)).
Proof.
  intros He. unfold slice0.
  destruct (Z.ltb_spec e 0); [lia|].
  rewrite length_firstn. lia.
Qed.


End RankingFacts.

(** ** Tally *)

Section TallyFacts.

Lemma tally_get_set (k k' : string) (v : Z) (m : tally) :
  tally_get k' (tally_set k v m)
  = if String.eqb k k' then Some v else tally_get k' m.
Proof.
  induction m as [|[k0 v0] m IH]; simpl.
  - destruct (String.eqb_spec k k'); reflexivity.
  - destruct (String.eqb_spec k0 k) as [-> | Hne]; simpl.
    + destruct (String.eqb_spec k k'); reflexivity.
    + destruct (String.eqb_spec k0 k') as [-> | Hne'].
      * destruct (String.eqb_spec k k'); congruence.
      * exact IH.
Qed.

Lemma tally_get_bump (a k : string) (m : tally) :
  tally_get k (bump a m)
  = if String.eqb a k then Some (num_or (tally_get a m) 0 + 1)
    else tally_get k m.
Proof. unfold bump. apply tally_get_set. Qed.

Lemma tally_set_keys (k x : string) (v : Z) (m : tally) :
  In x (map fst (tally_set k v m)) <-> x = k \/ In x (map fst m).
Proof.
  induction m as [|[k0 v0] m IH]; simpl.
  - intuition.
  - destruct (String.eqb_spec k0 k) as [-> | Hne]; simpl.
    + intuition.
    + rewrite IH. intuition.
Qed.

Lemma tally_set_NoDup (k : string) (v : Z) (m : tally) :
  List.NoDup (map fst m) -> List.NoDup (map fst (tally_set k v m)).
Proof.
  induction m as [|[k0 v0] m IH]; simpl; intros Hnd.
  - constructor; [intros [] | constructor].
  - inversion Hnd as [|? ? Hnotin Hnd']; subst.
    destruct (String.eqb_spec k0 k) as [-> | Hne]; simpl.
    + now constructor.
    + constructor; [|auto].
      rewrite tally_set_keys. intros [-> | Hin]; [congruence | auto].
Qed.

Lemma tally_In_get (k : string) (v : Z) (m : tally) :
  List.NoDup (map fst m) -> (In (k, v) m <-> tally_get k m = Some v).
Proof.
  induction m as [|[k0 v0] m IH]; simpl; intros Hnd.
  - split; [intros [] | discriminate].
  - inversion Hnd as [|? ? Hnotin Hnd']; subst.
    destruct (String.eqb_spec k0 k) as [-> | Hne].
    + split.
      * intros [[= ->] | Hin]; [reflexivity|].
        exfalso. apply Hnotin. now apply (in_map fst) in Hin.
      * intros [= ->]. now left.
    + rewrite <- (IH Hnd'). split; [intros [[= ? ?] | ?] | ]; auto; congruence.
Qed.

(** Two tallies that answer every [get] alike hold the same entries. *)
Lemma tally_same_entries (m1 m2 : tally) :
  List.NoDup (map fst m1) -> List.NoDup (map fst m2) ->
  (forall k, tally_get k m1 = tally_get k m2) ->
  Permutation m1 m2.
Proof.
  intros H1 H2 Hget.
  apply NoDup_Permutation.
  - apply NoDup_ListNoDup in H1. now apply NoDup_fmap_1 in H1.
  - apply NoDup_ListNoDup in H2. now apply NoDup_fmap_1 in H2.
  - intros [k v]. rewrite !list_elem_of_In.
    rewrite (tally_In_get k v m1 H1), (tally_In_get k v m2 H2), Hget.
    reflexivity.
Qed.

End TallyFacts.

Section AccumulateFacts.
Context {R : Runtime}.

Lemma accumulate_NoDup c evs m :
  List.NoDup (map fst m) -> List.NoDup (map fst (accumulate c evs m)).
Proof.
  revert m. induction evs as [|ev evs IH]; simpl; intros m Hm; [exact Hm|].
  apply IH. destruct (eventMatches c ev.1 ev.2); [|exact Hm].
  now apply tally_set_NoDup.
Qed.

Lemma count_step_equiv c (ev : history * item) m1 m2 :
  (forall k, tally_get k m1 = tally_get k m2) ->
  forall k,
    tally_get k (if eventMatches c ev.1 ev.2
                 then bump (authorName ev.1) m1 else m1)
    = tally_get k (if eventMatches c ev.1 ev.2
                   then bump (authorName ev.1) m2 else m2).
Proof.
  intros Hm k. destruct (eventMatches c ev.1 ev.2); [|apply Hm].
  rewrite !tally_get_bump, !Hm. reflexivity.
Qed.

Lemma bump_bump a b m k :
  tally_get k (bump a (bump b m)) = tally_get k (bump b (bump a m)).
Proof.
  rewrite !tally_get_bump.
  destruct (String.eqb_spec a k) as [Hak | Hak];
    destruct (String.eqb_spec b k) as [Hbk | Hbk];
    destruct (String.eqb_spec a b) as [Hab | Hab];
    destruct (String.eqb_spec b a) as [Hba | Hba];
    subst; try congruence; reflexivity.
Qed.

Lemma accumulate_equiv c evs m1 m2 :
  (forall k, tally_get k m1 = tally_get k m2) ->
  forall k, tally_get k (accumulate c evs m1)
            = tally_get k (accumulate c evs m2).
Proof.
  revert m1 m2. induction evs as [|ev evs IH]; simpl; intros m1 m2 Hm.
  - exact Hm.
  - apply IH. now apply count_step_equiv.
Qed.

(** The tally answers [get] alike for every order of the same events. *)
Lemma accumulate_Permutation c evs1 evs2 :
  Permutation evs1 evs2 ->
  forall m1 m2,
    (forall k, tally_get k m1 = tally_get k m2) ->
    forall k, tally_get k (accumulate c evs1 m1)
              = tally_get k (accumulate c evs2 m2).
Proof.
  induction 1 as [| x l l' HP IH | x y l | l l' l'' HP1 IH1 HP2 IH2];
    intros m1 m2 Hm; simpl.
  - exact Hm.
  - apply IH. now apply count_step_equiv.
  - apply accumulate_equiv. intros k.
    destruct (eventMatches c x.1 x.2), (eventMatches c y.1 y.2);
      try (rewrite !tally_get_bump, !Hm; reflexivity); [|apply Hm].
    rewrite bump_bump, !tally_get_bump, !Hm. reflexivity.
  - intros k. rewrite (IH1 m1 m2 Hm k). apply IH2. reflexivity.
Qed.


(** [processHistory] feeds the events of the history, in order, and so
    does the loop over the histories of a page. *)
Lemma processHistory_accumulate c m h :
  processHistory c m h = accumulate c (events_of h) m.
Proof.
  unfold processHistory, accumulate, events_of, eventMatches.
  destruct (windowPasses (since c) (until c) (created h)) eqn:E.
  - generalize (arr_or_empty (items h)) as l. intros l. revert m.
    induction l as [|it l IH]; simpl; intros m; [reflexivity|].
    rewrite E. simpl. apply IH.
  - generalize (arr_or_empty (items h)) as l. intros l. revert m.
    induction l as [|it l IH]; simpl; intros m; [reflexivity|].
    rewrite E. simpl. apply IH.
Qed.

Lemma processHistories_accumulate c m hs :
  fold_left (processHistory c) hs m
  = accumulate c (concat (map events_of hs)) m.
Proof.
  revert m. induction hs as [|h hs IH]; simpl; intros m; [reflexivity|].
  rewrite IH, processHistory_accumulate.
  unfold accumulate. now rewrite fold_left_app.
Qed.

End AccumulateFacts.

(** ** Query resolution *)

Section QueryFacts.
Context {R : Runtime}.
Import Str StrFacts.

Lemma digit_not_quote c s :
  is_digit c = true ->
  startsWithChar dquote (String c s) = false /\
  startsWithChar squote (String c s) = false.
Proof.
  unfold is_digit, startsWithChar. intros H.
  apply andb_prop in H as [H1 H2].
  apply Nat.leb_le in H1. apply Nat.leb_le in H2.
  split; apply Ascii.eqb_neq; intros <-;
    unfold dquote, squote in *; rewrite nat_ascii_embedding in *; lia.
Qed.

Lemma cleanEnv_digits s : all_digits s = true -> cleanEnv (Some s) = s.
Proof.
  intros H. destruct s as [|c s]; [discriminate|].
  unfold all_digits in H. unfold cleanEnv.
  rewrite (trim_digits _ H).
  simpl in H. apply andb_prop in H as [Hc Hs].
  destruct (digit_not_quote c s Hc) as [-> ->]. simpl.
  apply trim_digits. simpl. now rewrite Hc, Hs.
Qed.

Lemma cleanEnv_blank s : all is_space s = true -> cleanEnv (Some s) = EmptyString.
Proof. intros H. unfold cleanEnv. rewrite (trim_blank s H). reflexivity. Qed.

Lemma lower_h_not_digit c :
  lower_ascii c = "h"%char -> is_digit c = false.
Proof.
  destruct c as [[] [] [] [] [] [] [] []]; vm_compute; congruence.
Qed.

Lemma url_not_digits raw :
  looks_like_url raw = true -> all_digits raw = false /\ raw <> EmptyString.
Proof.
  unfold looks_like_url. destruct raw as [|c raw]; [discriminate|].
  intros H. split; [|discriminate].
  change (toLowerCase (String c raw))
    with (String (lower_ascii c) (toLowerCase raw)) in H.
  rewrite !startsWith_cons in H.
  assert (lower_ascii c = "h"%char) as Hc.
  { apply orb_prop in H as [H | H]; apply andb_prop in H as [H _];
      apply Ascii.eqb_eq in H; congruence. }
  unfold all_digits. cbn [all].
  now rewrite (lower_h_not_digit c Hc).
Qed.


End QueryFacts.


(** ** Result cache *)

Section CacheFacts.
Context {V : Type}.

(** C6. After [cacheSet(K, v, T)] with a positive [T] at the instant
    [t0], a [cacheGet(K)] no later than [t0 + T] returns [v] and leaves
    the cache as it is; a [cacheGet(K)] after [t0 + T] returns nothing and
    removes the entry. With a TTL that is zero or absent the entry is
    returned at every instant. The clock is not before the epoch. *)
Theorem cache_round_trip (K : string) (v : V) (t0 : Z)
    (CACHE : gmap string (cache_entry V)) :
  (forall T t1, 0 <= t0 -> 0 < T -> t1 <= t0 + T ->
     cacheGet t1 K (cacheSet t0 K v (Some T) CACHE)
     = (Some v, cacheSet t0 K v (Some T) CACHE)) /\
  (forall T t1, 0 <= t0 -> 0 < T -> t0 + T < t1 ->
     cacheGet t1 K (cacheSet t0 K v (Some T) CACHE)
     = (None, delete K (cacheSet t0 K v (Some T) CACHE)) /\
     delete K (cacheSet t0 K v (Some T) CACHE) !! K = None) /\
  (forall ttl t1, ttl = None \/ ttl = Some 0 ->
     cacheGet t1 K (cacheSet t0 K v ttl CACHE)
     = (Some v, cacheSet t0 K v ttl CACHE)).
Proof.
  assert (forall T, 0 < T -> (match T with 0 => 0 | _ => t0 + T end) = t0 + T)
    as HE by (intros T HT; destruct T; [lia | reflexivity | reflexivity]).
  unfold cacheGet, cacheSet. split; [|split].
  - intros T t1 Ht0 HT Ht1.
    rewrite lookup_insert_eq. simpl. rewrite HE by assumption.
    destruct (Z.ltb_spec (t0 + T) t1); [lia|].
    now rewrite andb_false_r.
  - intros T t1 Ht0 HT Ht1. split; [|apply lookup_delete_eq].
    rewrite lookup_insert_eq. simpl. rewrite HE by assumption.
    destruct (Z.ltb_spec (t0 + T) t1); [|lia].
    destruct (Z.eqb_spec (t0 + T) 0); [lia|]. reflexivity.
  - intros ttl t1 [-> | ->]; rewrite lookup_insert_eq; reflexivity.
Qed.

End CacheFacts.

(** ** Worker pool *)

Section PoolFacts.
Import mapLimit.

Lemma num_leb_of_Z a b : num_leb (of_Z a) (of_Z b) = (a <=? b).
Proof.
  unfold num_leb, of_Z, Qle_bool, inject_Z. simpl.
  now rewrite !Z.mul_1_r.
Qed.

Lemma Math_min_of_Z a b : Math_min (of_Z a) (of_Z b) = of_Z (Z.min a b).
Proof.
  unfold Math_min. change (of_Z a) with (Num (inject_Z a)) at 1.
  change (of_Z b) with (Num (inject_Z b)) at 1. cbv iota.
  change (Num (inject_Z a)) with (of_Z a).
  change (Num (inject_Z b)) with (of_Z b).
  rewrite num_leb_of_Z. destruct (Z.leb_spec a b); f_equal; lia.
Qed.

Lemma Math_max_of_Z a b : Math_max (of_Z a) (of_Z b) = of_Z (Z.max a b).
Proof.
  unfold Math_max. change (of_Z a) with (Num (inject_Z a)) at 1.
  change (of_Z b) with (Num (inject_Z b)) at 1. cbv iota.
  change (Num (inject_Z a)) with (of_Z a).
  change (Num (inject_Z b)) with (of_Z b).
  rewrite num_leb_of_Z. destruct (Z.leb_spec a b); f_equal; lia.
Qed.

Lemma concurrency_integer (cfg : option Z) :
  concurrency (option_map of_Z cfg)
  = of_Z (Z.max 1 (Z.min 10 (default 5 cfg))).
Proof.
  unfold concurrency. destruct cfg as [z|]; cbn [option_map];
    rewrite Math_min_of_Z, Math_max_of_Z; reflexivity.
Qed.

Lemma size_reaches_false n q :
  size_reaches n (Num q) = false -> (inject_Z (Z.of_nat n) < q)%Q.
Proof.
  unfold size_reaches, num_leb, of_Z. intros H.
  apply Qnot_le_lt. intros Hle. apply Qle_bool_iff in Hle. congruence.
Qed.

Lemma inject_succ n :
  inject_Z (Z.of_nat (S n)) = (inject_Z (Z.of_nat n) + 1)%Q.
Proof. rewrite Nat2Z.inj_succ, <- Z.add_1_r, inject_Z_plus. reflexivity. Qed.

Lemma length_middle {A} (l1 l2 : list A) (x : A) :
  length (l1 ++ x :: l2) = S (length (l1 ++ l2)).
Proof. rewrite !length_app. simpl. lia. Qed.

Lemma step_room q p p' :
  (0 < q)%Q -> step (Num q) p p' -> room q p -> room q p'.
Proof.
  intros Hq Hstep. destruct Hstep; unfold room; cbn [pending at_loop].
  - rewrite length_app. cbn [length]. rewrite Nat.add_1_r.
    intros Hn.
    destruct (size_reaches (S (length pend)) (Num q)) eqn:E; cbv iota.
    + rewrite inject_succ. lra.
    + now apply size_reaches_false.
  - now rewrite !length_middle.
  - now rewrite !length_middle.
  - rewrite length_middle, inject_succ.
    destruct lp as [|[]| |]; cbn [wake]; cbv iota; lra.
  - auto.
  - auto.
  - auto.
Qed.

Lemma reachable_room q arr p :
  (0 < q)%Q -> reachable (Num q) arr p -> room q p.
Proof.
  intros Hq. induction 1 as [|p p' Hr IH Hs].
  - unfold room. simpl. exact Hq.
  - now apply (step_room q p p').
Qed.

Lemma room_bound q p :
  room q p -> (inject_Z (Z.of_nat (length (pending p))) < q + 1)%Q.
Proof. unfold room. destruct (at_loop p) as [|[]| |]; lra. Qed.

Lemma in_flight_le_pending p : (in_flight p <= length (pending p))%nat.
Proof. unfold in_flight. apply length_filter. Qed.


End PoolFacts.

(** ** Pagination *)

Section PaginationFacts.
Variable rem : remote.
Variable step : tally -> history -> tally.

(** More fuel does not change a finished loop. *)
Lemma pageLoop_more_fuel fuel fuel' issueId k s a res :
  (fuel <= fuel')%nat ->
  pageLoop rem step fuel issueId k s a = Some res ->
  pageLoop rem step fuel' issueId k s a = Some res.
Proof.
  revert fuel' k s a. induction fuel as [|fuel IH]; intros fuel' k s a Hle.
  - discriminate.
  - destruct fuel' as [|fuel']; [lia|]. simpl.
    destruct (changelogResponse rem issueId k s 100) as [log|e]; [|auto].
    destruct (Nat.eqb _ 0); [auto|].
    destruct (_ <? _); [|auto].
    apply IH. lia.
Qed.

(** With the reported totals bounded by [T], the loop at offset [s] ends
    within [T - s] further iterations. *)
Lemma pageLoop_terminates (T : Z) issueId :
  (forall k s log, changelogResponse rem issueId k s 100 = Ok log ->
                   num_or (total log) 0 <= T) ->
  forall fuel k s a,
    0 <= s -> (Z.to_nat (T - s) < fuel)%nat ->
    exists r a' tr,
      pageLoop rem step fuel issueId k s a = Some (r, a') /\
      calls a' = calls a ++ tr /\
      page_walk rem issueId k s tr /\
      (length tr <= S (Z.to_nat (T - s)))%nat.
Proof.
  intros HT. induction fuel as [|fuel IH]; intros k s a Hs Hfuel; [lia|].
  simpl.
  destruct (changelogResponse rem issueId k s 100) as [log|e] eqn:E.
  2: { eexists _, _, _. split; [reflexivity|]. simpl. split; [reflexivity|].
       split; [eapply walk_throw; eauto | simpl; lia]. }
  pose proof (HT _ _ _ E) as Htot.
  destruct (arr_or_empty (values log)) as [|h hs] eqn:Ev.
  { simpl. eexists _, _, _. split; [reflexivity|]. simpl.
    split; [reflexivity|].
    split; [eapply walk_empty; eauto | simpl; lia]. }
  cbn [length Nat.eqb].
  destruct (Z.ltb_spec (s + Z.of_nat (S (length hs))) (num_or (total log) 0))
    as [Hlt | Hge].
  - edestruct (IH (S k) (s + Z.of_nat (S (length hs)))
                 {| counts := fold_left step (h :: hs) (counts a);
                    calls := calls a ++ [CallChangelog issueId s 100] |})
      as (r & a' & tr & Hrun & Hcalls & Hwalk & Hlen); [lia | lia |].
    exists r, a', (CallChangelog issueId s 100 :: tr).
    split; [exact Hrun|]. split.
    + rewrite Hcalls. simpl. now rewrite <- app_assoc.
    + split.
      * eapply walk_more; eauto; rewrite Ev; [discriminate | exact Hlt | exact Hwalk].
      * simpl. lia.
  - eexists _, _, _. split; [reflexivity|]. simpl. split; [reflexivity|].
    split; [|simpl; lia].
    eapply walk_reached; eauto. rewrite Ev. exact Hge.
Qed.

(** C8, as the code has it. Pagination of an issue starts at offset 0
    with page size 100 and advances by the number of histories returned;
    it stops at a failed request, at a page without histories (whatever
    total that page reports) and when the advanced offset reaches the
    total of the page just read. When the totals that the pages report
    are bounded by some [T], the loop ends after at most [max(T, 0) + 1]
    requests, and its result no longer depends on the fuel. *)
Theorem pagination_terminates (T : Z) (i : issue) (a : agg) :
  (forall k s log, changelogResponse rem (id i) k s 100 = Ok log ->
                   num_or (total log) 0 <= T) ->
  exists r a' tr,
    processIssue rem step (S (Z.to_nat T)) i a = Some (r, a') /\
    calls a' = calls a ++ tr /\
    page_walk rem (id i) 0 0 tr /\
    (length tr <= S (Z.to_nat T))%nat /\
    (forall fuel, (S (Z.to_nat T) <= fuel)%nat ->
                  processIssue rem step fuel i a = Some (r, a')).
Proof.
  intros HT. unfold processIssue.
  destruct (pageLoop_terminates T (id i) HT (S (Z.to_nat T)) 0%nat 0 a)
    as (r & a' & tr & Hrun & Hcalls & Hwalk & Hlen);
    [lia | rewrite Z.sub_0_r; lia |].
  rewrite Z.sub_0_r in Hlen.
  exists r, a', tr. repeat split; auto.
  intros fuel Hfuel. eapply pageLoop_more_fuel; eauto.
Qed.

End PaginationFacts.

Lemma growing_never_ends step fuel issueId k s a :
  pageLoop TestRuntime.growing step fuel issueId k s a = None.
Proof.
  revert k s a. induction fuel as [|fuel IH]; intros k s a; [reflexivity|].
  cbn [pageLoop TestRuntime.growing changelogResponse total values
       arr_or_empty length Nat.eqb].
  assert (num_or (Some (Z.abs s + 2)) 0 = Z.abs s + 2) as ->
    by (unfold num_or; destruct (Z.abs s + 2) eqn:E; lia).
  destruct (Z.ltb_spec (s + Z.of_nat 1) (Z.abs s + 2)); [apply IH | lia].
Qed.

(** C8 as the specification words it fails on the code: finite pages alone
    do not end the loop. Against a remote whose every page holds one history
    and reports a total beyond the offset reached, [processIssue] is still
    running after any number of iterations. *)
Lemma pagination_may_not_terminate :
  ~ (forall rem : remote,
        exists fuel,
          is_Some (processIssue rem
                     (processHistory (R := TestRuntime.runtime)
                        TestRuntime.no_criteria)
                     fuel TestRuntime.issue_A TestRuntime.nothing_yet)).
Proof.
  intros H. destruct (H TestRuntime.growing) as (fuel & r & Hr).
  unfold processIssue in Hr. rewrite growing_never_ends in Hr. discriminate.
Qed.

(** ** Request handlers *)

Section HandlerFacts.
Context {R : Runtime}.
Import Str StrFacts.

Lemma toJql_blank s : all is_space s = true -> toJql (Some s) = EmptyString.
Proof. intros H. unfold toJql. now rewrite (cleanEnv_blank s H). Qed.

(** C9. A request whose [filter] is absent, empty or made of white space
    only is answered with status 400 by both handlers, whatever the
    remote API would answer and however much fuel there is, and the
    process is left as it was: no request has been sent to the remote API
    and the cache is untouched. *)
Theorem blank_filter_rejected (E : env) (rem : remote) (fuel : nat)
    (now later : Z) (q : request) (w : world) :
  (q_filter q = None \/
   exists s, q_filter q = Some s /\ all is_space s = true) ->
  exists msg,
    handleMovers E rem fuel now later q w = Some (reply 400 (Error msg), w) /\
    handler E rem fuel now later q w = Some (reply 400 (Error msg), w).
Proof.
  intros Hblank. unfold handleMovers, handler.
  destruct (truthy (q_filter q)) eqn:Ht; simpl.
  - destruct Hblank as [Hnone | (s & Hs & Hsp)].
    + rewrite Hnone in Ht. discriminate.
    + rewrite Hs, (toJql_blank s Hsp). simpl. eauto.
  - eauto.
Qed.

(** A live cache entry is the answer: the remote API is not asked. *)
Lemma cached_is_served (E : env) (rem : remote) (fuel : nat) (now later : Z)
    (q : request) (w : world) (p : payload) C1 :
  truthy (q_filter q) = true ->
  toJql (q_filter q) <> EmptyString ->
  cacheGet now (cacheKey_of (toJql (q_filter q)) q) (CACHE w) = (Some p, C1) ->
  handleMovers E rem fuel now later q w
  = Some (reply 200 (Result p), {| CACHE := C1; sent := sent w |}).
Proof.
  intros Hf Hj Hc. apply truthy_nonempty in Hj.
  unfold handleMovers. cbv zeta. rewrite Hf, Hj. cbn [negb].
  now rewrite Hc.
Qed.

Lemma intParam_supplied s dflt dfltN cap :
  parseInt10 dflt = Some dfltN ->
  intParam (Some s) dflt dfltN cap = Z.min (num_or (parseInt10 s) dfltN) cap.
Proof.
  intros Hd. unfold intParam. destruct s as [|c s]; [|reflexivity].
  simpl or_else. rewrite Hd. f_equal.
  destruct dfltN; reflexivity.
Qed.

(** C10. A numeric parameter that is supplied but reads as 0 or NaN
    takes its default: 20 for [limit], 150 for [maxIssues], 0 for
    [concurrency] and 60 seconds for [ttl], so that the entry stored for
    such a request expires 60000 ms after it is stored and not never. Only
    the upper bound is enforced: any other value is cut at the cap, and a
    negative value is used as it is. *)
Theorem zero_or_nan_uses_default (q : request) :
  (forall s, parseInt10 s = None \/ parseInt10 s = Some 0 ->
     (q_limit q = Some s -> limit_of q = 20) /\
     (q_maxIssues q = Some s -> maxIssues_of q = 150) /\
     (q_concurrency q = Some s -> concurrencyParam_of q = 0) /\
     (q_ttl q = Some s ->
      ttl_of q = 60 * 1000 /\
      forall (later : Z) (k : string) (p : payload) C,
        expireAt <$> (cacheSet later k p (Some (ttl_of q)) C !! k)
        = Some (later + 60000))) /\
  (forall s z, parseInt10 s = Some z -> z <> 0 ->
     (q_limit q = Some s -> limit_of q = Z.min z 100) /\
     (q_maxIssues q = Some s -> maxIssues_of q = Z.min z 1000) /\
     (q_concurrency q = Some s -> concurrencyParam_of q = Z.min z 20) /\
     (q_ttl q = Some s -> ttl_of q = Z.min z 600 * 1000)) /\
  (forall s z, parseInt10 s = Some z -> z < 0 ->
     (q_limit q = Some s -> limit_of q = z) /\
     (q_maxIssues q = Some s -> maxIssues_of q = z) /\
     (q_concurrency q = Some s -> concurrencyParam_of q = z) /\
     (q_ttl q = Some s -> ttl_of q = z * 1000)).
Proof.
  assert (forall s z, parseInt10 s = Some z -> z <> 0 ->
                      forall d, num_or (parseInt10 s) d = z) as Hval
    by (intros s z -> Hz d; destruct z; [congruence | reflexivity..]).
  unfold limit_of, maxIssues_of, concurrencyParam_of, ttl_of.
  split; [|split].
  - intros s Hs.
    assert (forall d, num_or (parseInt10 s) d = d) as Hdflt
      by (intros d; destruct Hs as [-> | ->]; reflexivity).
    split; [|split; [|split]]; intros ->;
      rewrite intParam_supplied, Hdflt by reflexivity;
      try reflexivity.
    split; [reflexivity|].
    intros later k p C. unfold cacheSet.
    rewrite lookup_insert_eq. reflexivity.
  - intros s z Hz Hnz. split; [|split; [|split]]; intros ->;
      now rewrite intParam_supplied, (Hval s z) by auto.
  - intros s z Hz Hneg. split; [|split; [|split]]; intros ->;
      rewrite intParam_supplied, (Hval s z) by (auto; lia); lia.
Qed.

End HandlerFacts.

(** ** The functions on concrete inputs *)

Module Checks.
Import TestRuntime.

Lemma ascii_compare_trans a b c :
  Ascii.compare a b = Lt -> Ascii.compare b c = Lt -> Ascii.compare a c = Lt.
Proof. unfold Ascii.compare. rewrite !N.compare_lt_iff. lia. Qed.

Lemma string_compare_trans a : forall b c,
  String.compare a b = Lt -> String.compare b c = Lt ->
  String.compare a c = Lt.
Proof.
  induction a as [|x a IH]; intros [|y b] [|z c]; simpl; try congruence.
  destruct (Ascii.compare x y) eqn:Exy; try discriminate;
    destruct (Ascii.compare y z) eqn:Eyz; try discriminate; intros Hab Hbc.
  - apply Ascii.compare_eq_iff in Exy as ->. rewrite Eyz. eauto.
  - apply Ascii.compare_eq_iff in Exy as ->. now rewrite Eyz.
  - apply Ascii.compare_eq_iff in Eyz as <-. now rewrite Exy.
  - now rewrite (ascii_compare_trans x y z Exy Eyz).
Qed.

Lemma test_collation : Collation runtime.
Proof.
  split; simpl.
  - intros a b. apply String.compare_antisym.
  - intros a b c Hab Hbc.
    destruct (String.compare a b) eqn:E1; try congruence.
    + apply String.compare_eq_iff in E1 as ->. exact Hbc.
    + destruct (String.compare b c) eqn:E2; try congruence.
      * apply String.compare_eq_iff in E2 as <-. congruence.
      * rewrite (string_compare_trans a b c E1 E2). discriminate.
Qed.

(** The trimmed, case-folded match of C1 at work. *)
Example filter_examples :
  itemMatches january qa_done = true /\
  itemMatches january open_qa = false /\
  itemMatches january renamed = false /\
  toValue open_qa = "In QA"%string.
Proof. repeat split. Qed.


(** The boundaries of the window belong to it; the instant after the
    upper one does not. *)
Example window_examples :
  windowPasses (R := runtime) (since january) (until january)
    (Some "2024-01-01T00:00:00.000Z"%string) = true /\
  windowPasses (R := runtime) (since january) (until january)
    (Some "2024-01-31T23:59:59.999Z"%string) = true /\
  windowPasses (R := runtime) (since january) (until january)
    (Some "2024-02-01T00:00:00.000Z"%string) = false /\
  windowPasses (R := runtime) (since january) None
    (Some "yesterday"%string) = false /\
  windowPasses (R := runtime) None None (Some "yesterday"%string) = true.
Proof. repeat split. Qed.

Lemma time_window_check_witness :
  exists t,
    getTime (R := runtime) (Some "2024-01-01T00:00:00.000Z"%string) = Some t /\
    (forall lo, Str.truthy (since january) = true ->
                getTime (R := runtime) (since january) = Some lo -> lo <= t) /\
    (forall hi, Str.truthy (until january) = true ->
                getTime (R := runtime) (until january) = Some hi -> t <= hi).
Proof.
  apply (proj2 (time_window_check (R := runtime) (since january)
                  (until january) (Some "2024-01-01T00:00:00.000Z"%string))).
  - left. reflexivity.
  - reflexivity.
Defined.



Example toJql_examples :
  toJql (R := runtime) (Some "12345"%string) = "filter=12345"%string /\
  toJql (R := runtime) (Some " '12345' "%string) = "filter=12345"%string /\
  toJql (R := runtime)
    (Some "HTTPS://jira.example.com/issues/?filter=77&jql=x"%string)
  = "filter=77"%string /\
  toJql (R := runtime)
    (Some "https://jira.example.com/issues/?jql=project"%string)
  = "project"%string /\
  toJql (R := runtime) (Some "ftp://host/?filter=77"%string)
  = "ftp://host/?filter=77"%string /\
  toJql (R := runtime) (Some " project = ABC "%string)
  = "project = ABC"%string /\
  toJql (R := runtime) None = EmptyString.
Proof. repeat split. Qed.


Lemma cache_round_trip_witness :
  cacheGet 61000 "k" (cacheSet 1000 "k" 7%nat (Some 60000) ∅)
  = (Some 7%nat, cacheSet 1000 "k" 7%nat (Some 60000) ∅) /\
  cacheGet 61001 "k" (cacheSet 1000 "k" 7%nat (Some 60000) ∅)
  = (None, delete "k" (cacheSet 1000 "k" 7%nat (Some 60000) ∅)).
Proof.
  pose proof (cache_round_trip "k" 7%nat 1000 ∅) as (Hin & Hout & _).
  split.
  - apply Hin; lia.
  - apply Hout; lia.
Defined.

Lemma two_spawned_reachable :
  mapLimit.reachable (poolLimit limit_two qa_to_done)
    [issue_A; issue_B; issue_C] two_spawned.
Proof.
  eapply mapLimit.reach_step.
  - eapply mapLimit.reach_step.
    + eapply mapLimit.reach_step; [apply mapLimit.reach_init|].
      exact (mapLimit.step_spawn _ issue_A [issue_B; issue_C] []).
    + exact (mapLimit.step_start _ issue_A [issue_B; issue_C] [] [] mapLimit.Looping).
  - exact (mapLimit.step_spawn _ issue_B [issue_C] [(issue_A, mapLimit.Running)]).
Defined.


(** What the clamp makes of settings that are not integers between 1 and
    10, and what the test of the pool makes of NaN. *)
Example concurrency_examples :
  concurrency None = of_Z 5 /\
  concurrency (Some (of_Z 0)) = of_Z 1 /\
  concurrency (Some (of_Z 64)) = of_Z 10 /\
  concurrency (Some PosInf) = of_Z 10 /\
  concurrency (Some NegInf) = of_Z 1 /\
  concurrency (Some NaN) = NaN /\
  mapLimit.size_reaches 1000 NaN = false.
Proof. repeat split. Qed.

Example pagination_example :
  processIssue three_issues (processHistory (R := runtime) no_criteria)
    3 issue_B nothing_yet
  = Some (Ok tt,
          {| counts := [("alice", 1); ("bob", 1)]%string;
             calls := [CallChangelog "10002" 0 100;
                       CallChangelog "10002" 1 100] |}) /\
  processIssue three_issues (processHistory (R := runtime) no_criteria)
    1 issue_B nothing_yet = None /\
  processIssue three_issues (processHistory (R := runtime) no_criteria)
    1 issue_C nothing_yet
  = Some (Ok tt, {| counts := [];
                    calls := [CallChangelog "10003" 0 100] |}).
Proof. repeat split. Qed.

Lemma pagination_terminates_witness :
  exists r a' tr,
    processIssue three_issues (processHistory (R := runtime) no_criteria)
      (S (Z.to_nat 2)) issue_B nothing_yet = Some (r, a') /\
    calls a' = calls nothing_yet ++ tr /\
    page_walk three_issues (id issue_B) 0 0 tr /\
    (length tr <= S (Z.to_nat 2))%nat /\
    (forall fuel, (S (Z.to_nat 2) <= fuel)%nat ->
       processIssue three_issues (processHistory (R := runtime) no_criteria)
         fuel issue_B nothing_yet = Some (r, a')).
Proof.
  apply (pagination_terminates three_issues
           (processHistory (R := runtime) no_criteria) 2 issue_B nothing_yet).
  intros k s log H. cbn in H. injection H as <-. cbn. lia.
Defined.

(** The first end-to-end scenario of the specification: three issues,
    [from=In QA], [to=Done]; alice has two matching transitions, bob and
    the third issue contribute nothing. *)
Example handleMovers_scenario :
  option_map
    (fun rw =>
       (rw.1, sent rw.2,
        expireAt <$> (CACHE rw.2
                        !! cacheKey_of (R := runtime) "filter=100" qa_to_done)))
    (handleMovers (R := runtime) configured_env three_issues 3 1000 2000
       qa_to_done fresh)
  = Some (reply 200
            (Result (Users
               {| p_filter := Some "100"%string;
                  p_from := Some "in qa"%string; p_to := Some "DONE"%string;
                  p_notFrom := None; p_notTo := None;
                  p_since := None; p_until := None;
                  totalIssues := 3;
                  users := [("alice", 2)]%string |})),
          [CallSearch "filter=100" 150;
           CallChangelog "10001" 0 100;
           CallChangelog "10002" 0 100;
           CallChangelog "10002" 1 100;
           CallChangelog "10003" 0 100],
          Some 62000).
Proof. vm_compute. reflexivity. Qed.

(** The second and third scenarios: discovery mode on the same issues,
    and a [since] later than every event. *)
Example handler_discover_scenario :
  option_map (fun rw => rw.1)
    (handler (R := runtime) configured_env three_issues 3 1000 2000
       discover_request fresh)
  = Some (reply 200
            (Result (Transitions
               {| t_filter := Some "100"%string;
                  t_since := None; t_until := None;
                  t_totalIssues := 3;
                  transitions :=
                    [ {| pe_from := Some "In QA"%string;
                         pe_to := Some "Done"%string; pe_count := 2 |};
                      {| pe_from := Some "Open"%string;
                         pe_to := Some "In QA"%string; pe_count := 1 |} ] |}))).
Proof. vm_compute. reflexivity. Qed.

Example handleMovers_since_scenario :
  option_map (fun rw => (statusCode rw.1, resp_body rw.1))
    (handleMovers (R := runtime) configured_env three_issues 3 1000 2000
       since_february fresh)
  = Some (200,
          Result (Users
            {| p_filter := Some "100"%string;
               p_from := Some "In QA"%string; p_to := Some "Done"%string;
               p_notFrom := None; p_notTo := None;
               p_since := Some "2024-02-01T00:00:00.000Z"%string;
               p_until := None;
               totalIssues := 3;
               users := [] |})).
Proof. vm_compute. reflexivity. Qed.

(** A second request within the TTL is served from the cache: the same
    body, and no further request to the remote API; after the TTL the
    remote API is asked again. *)
Example handleMovers_cache_hit :
  match handleMovers (R := runtime) configured_env three_issues 3 1000 2000
          qa_to_done fresh with
  | Some (r1, w1) =>
      match handleMovers (R := runtime) configured_env three_issues 3
              62000 63000 qa_to_done w1,
            handleMovers (R := runtime) configured_env three_issues 3
              62001 63000 qa_to_done w1 with
      | Some (r2, w2), Some (r3, w3) =>
          r2 = r1 /\ sent w2 = sent w1 /\
          r3 = r1 /\ length (sent w3) = (length (sent w1) + 5)%nat
      | _, _ => False
      end
  | None => False
  end.
Proof. vm_compute. repeat split. Qed.

Lemma blank_filter_rejected_witness :
  exists msg,
    handleMovers (R := runtime) configured_env three_issues 0 1000 2000
      blank_request fresh = Some (reply 400 (Error msg), fresh) /\
    handler (R := runtime) configured_env three_issues 0 1000 2000
      blank_request fresh = Some (reply 400 (Error msg), fresh).
Proof.
  apply (blank_filter_rejected (R := runtime) configured_env three_issues
           0 1000 2000 blank_request fresh).
  right. exists "   "%string. split; reflexivity.
Defined.

Example parseInt10_examples :
  parseInt10 "0" = Some 0 /\ parseInt10 "abc" = None /\
  parseInt10 "  -5px" = Some (-5) /\ parseInt10 "+250" = Some 250 /\
  parseInt10 "-0" = Some 0 /\ parseInt10 "-" = None.
Proof. repeat split. Qed.

Lemma zero_or_nan_uses_default_witness :
  limit_of blank_request = 20 /\ ttl_of blank_request = 60 * 1000.
Proof.
  pose proof (proj1 (zero_or_nan_uses_default blank_request) "0"%string
                (or_intror eq_refl)) as (Hlimit & _ & _ & Httl).
  split.
  - apply Hlimit. reflexivity.
  - apply Httl. reflexivity.
Defined.

End Checks.

(** * Further properties of the code *)

(** ** Cleaning and resolving the query *)

Section CleanFacts.
Import Str StrFacts.

Lemma trimEnd_idem s : trimEnd (trimEnd s) = trimEnd s.
Proof.
  induction s as [|c s IH]; simpl; [reflexivity|].
  destruct (trimEnd s) as [|d r] eqn:E.
  - destruct (is_space c) eqn:Ec; simpl; [reflexivity|]. now rewrite Ec.
  - simpl in *. now rewrite IH.
Qed.

Lemma trimEnd_head c s :
  is_space c = false -> exists r, trimEnd (String c s) = String c r.
Proof.
  intros Hc. simpl. destruct (trimEnd s); rewrite ?Hc; eauto.
Qed.

Lemma trimStart_head s :
  trimStart s = EmptyString \/
  exists c r, trimStart s = String c r /\ is_space c = false.
Proof.
  induction s as [|c s IH]; simpl; [now left|].
  destruct (is_space c) eqn:E; [exact IH | right; eauto].
Qed.

Lemma trim_idem s : trim (trim s) = trim s.
Proof.
  unfold trim.
  destruct (trimStart_head s) as [-> | (c & r & -> & Hc)]; [reflexivity|].
  destruct (trimEnd_head c r Hc) as [r' Hr]. rewrite Hr.
  simpl trimStart. rewrite Hc. rewrite <- Hr. apply trimEnd_idem.
Qed.

(** X1. What [cleanEnv] returns never starts or ends with white space,
    and a string that is already trimmed and is not wrapped in a pair of
    double or single quotes comes back unchanged. *)
Theorem cleanEnv_normal_form (v : option string) :
  trim (cleanEnv v) = cleanEnv v /\
  (forall s, v = Some s -> trim s = s ->
     (startsWithChar dquote s && endsWithChar dquote s)
     || (startsWithChar squote s && endsWithChar squote s) = false ->
     cleanEnv v = s).
Proof.
  split.
  - destruct v as [s|]; [|reflexivity]. unfold cleanEnv. apply trim_idem.
  - intros s -> Ht Hq. unfold cleanEnv. rewrite Ht, Hq. exact Ht.
Qed.

End CleanFacts.

Section ResolveFacts.
Context {R : Runtime}.
Import Str StrFacts.

Lemma fromUrl_nonempty raw r : fromUrl raw = Some r -> r <> EmptyString.
Proof.
  unfold fromUrl. destruct (urlSearchParams raw) as [ps|]; [|discriminate].
  destruct (truthy (params_get "filter" ps) && _).
  - intros [= <-]. discriminate.
  - destruct (params_get "jql" ps) as [[|c j]|]; simpl; try discriminate.
    intros [= <-]. discriminate.
Qed.

Lemma toJql_empty_cases (v : option string) :
  toJql v = EmptyString <-> cleanEnv v = EmptyString.
Proof.
  unfold toJql. destruct (cleanEnv v) as [|c raw] eqn:E.
  - split; reflexivity.
  - simpl negb. cbv iota. split; [|discriminate].
    destruct (all_digits (String c raw)); [discriminate|].
    destruct (looks_like_url (String c raw)); [|discriminate].
    destruct (fromUrl (String c raw)) as [r|] eqn:F; [|discriminate].
    intros ->. now apply fromUrl_nonempty in F.
Qed.

(** X2. [toJql] returns the empty string exactly when the cleaned input
    is empty: no other input resolves to nothing. *)
Theorem toJql_empty_iff (v : option string) :
  toJql v = EmptyString <-> cleanEnv v = EmptyString.
Proof. exact (toJql_empty_cases v). Qed.

End ResolveFacts.

(** ** What the handlers answer and what they leave behind *)

Section AnswerFacts.
Context {R : Runtime}.
Import Str StrFacts.

Lemma pageLoop_calls rem step fuel issueId : forall k s a o a',
  pageLoop rem step fuel issueId k s a = Some (o, a') ->
  exists tr, calls a' = calls a ++ tr /\
             Forall (fun c => exists s', c = CallChangelog issueId s' 100) tr.
Proof.
  induction fuel as [|fuel IH]; intros k s a o a'; [discriminate|].
  simpl.
  assert (Forall (fun c => exists s', c = CallChangelog issueId s' 100)
            [CallChangelog issueId s 100]) as Hone
    by (constructor; [eauto | constructor]).
  destruct (changelogResponse rem issueId k s 100) as [log|e].
  2: { intros [= <- <-]. simpl. eauto. }
  destruct (Nat.eqb _ 0).
  { intros [= <- <-]. simpl. eauto. }
  destruct (_ <? _).
  2: { intros [= <- <-]. simpl. eauto. }
  intros Hrun. apply IH in Hrun as (tr & -> & Htr). simpl.
  exists (CallChangelog issueId s 100 :: tr). split.
  - now rewrite <- app_assoc.
  - constructor; eauto.
Qed.

Lemma processAll_calls rem step fuel : forall issues a o a',
  processAll rem step fuel issues a = Some (o, a') ->
  exists tr, calls a' = calls a ++ tr /\
             Forall (fun c => exists i s', In i issues /\
                                           c = CallChangelog (id i) s' 100) tr.
Proof.
  induction issues as [|i issues IH]; intros a o a'; simpl.
  - intros [= <- <-]. exists []. split; [now rewrite app_nil_r | constructor].
  - unfold processIssue.
    destruct (pageLoop rem step fuel (id i) 0 0 a) as [[[[]|e] a1]|] eqn:E;
      [| |discriminate].
    + apply pageLoop_calls in E as (tr1 & H1 & F1).
      intros Hrest. apply IH in Hrest as (tr2 & H2 & F2).
      exists (tr1 ++ tr2). split.
      * now rewrite H2, H1, app_assoc.
      * apply Forall_app. split.
        -- eapply Forall_impl; [exact F1|]. intros c [s' ->]. eauto.
        -- eapply Forall_impl; [exact F2|]. intros c (j & s' & Hj & ->). eauto.
    + apply pageLoop_calls in E as (tr1 & H1 & F1).
      intros [= <- <-]. exists tr1. split; [exact H1|].
      eapply Forall_impl; [exact F1|]. intros c [s' ->]. eauto.
Qed.

(** X3. The handlers answer 400, 200 or 500 and nothing else, and 400
    exactly when the [filter] parameter is absent or empty or cleans to the
    empty string (white space, or a pair of quotes around nothing); a 400
    leaves the process as it was. *)
Theorem handler_status (E : env) (rem : remote) (fuel : nat) (now later : Z)
    (q : request) (w : world) (r : response) (w' : world) :
  handleMovers E rem fuel now later q w = Some (r, w') \/
  handler E rem fuel now later q w = Some (r, w') ->
  (statusCode r = 400 \/ statusCode r = 200 \/ statusCode r = 500) /\
  (statusCode r = 400 <->
   truthy (q_filter q) = false \/ cleanEnv (q_filter q) = EmptyString) /\
  (statusCode r = 400 -> w' = w).
Proof.
  rewrite <- toJql_empty_cases.
  assert (forall s, negb (truthy (Some s)) = false -> s <> EmptyString) as Hne
    by (intros [|c s]; [discriminate | discriminate]).
  assert (forall s, negb (truthy (Some s)) = true -> s = EmptyString) as Hem
    by (intros [|c s]; [reflexivity | discriminate]).
  unfold handleMovers, handler, searchIssues, countTransitionsByUser,
    discoverTransitionPairs.
  intros [H | H]; repeat case_match; simplify_eq; simpl;
    repeat match goal with
           | H : negb (truthy (Some _)) = false |- _ => apply Hne in H
           | H : negb (truthy (Some _)) = true |- _ => apply Hem in H
           | H : negb _ = true |- _ => apply negb_true_iff in H
           | H : negb _ = false |- _ => apply negb_false_iff in H
           end;
    (split; [auto | split; [split; [try discriminate; auto
                                   | intros [? | ?]; congruence]
                           | try discriminate; auto]]).
Qed.

End AnswerFacts.

Section EffectFacts.
Context {R : Runtime}.
Import Str StrFacts.

Lemma cacheGet_effect {V} (now : Z) (key : string)
    (C C1 : gmap string (cache_entry V)) (o : option V) :
  cacheGet now key C = (o, C1) ->
  (forall k, k <> key -> C1 !! k = C !! k) /\ C1 ⊆ C /\
  (o = None -> C1 !! key = None).
Proof.
  unfold cacheGet. destruct (C !! key) as [hit|] eqn:E.
  - destruct (negb _ && _); intros [= <- <-].
    + split; [|split].
      * intros k Hk. now apply lookup_delete_ne.
      * apply delete_subseteq.
      * intros _. apply lookup_delete_eq.
    + split; [|split]; [reflexivity | reflexivity | discriminate].
  - intros [= <- <-]. split; [|split]; [reflexivity | reflexivity | auto].
Qed.

Lemma cacheGet_live {V} (t0 T t1 : Z) (key : string) (v : V)
    (C : gmap string (cache_entry V)) :
  0 <= t0 -> 0 < T -> t1 <= t0 + T ->
  cacheGet t1 key (cacheSet t0 key v (Some T) C)
  = (Some v, cacheSet t0 key v (Some T) C).
Proof.
  intros Ht0 HT Ht1. unfold cacheGet, cacheSet.
  rewrite lookup_insert_eq. simpl.
  assert ((match T with 0 => 0 | _ => t0 + T end) = t0 + T) as ->
    by (destruct T; [lia | reflexivity | reflexivity]).
  destruct (Z.ltb_spec (t0 + T) t1); [lia|]. now rewrite andb_false_r.
Qed.

Lemma slice0_length_le {A} (l : list A) (e : Z) :
  0 <= e -> Z.of_nat (length (slice0 l e)) <= e.
Proof.
  intros He. unfold slice0. destruct (Z.ltb_spec e 0); [lia|].
  rewrite length_firstn. lia.
Qed.

Ltac open_handlers :=
  unfold handleMovers, handler, searchIssues, countTransitionsByUser,
    discoverTransitionPairs;
  intros [? | ?]; repeat case_match; simplify_eq; simpl in *.

(** X4. Without the Jira configuration no request leaves the process:
    whatever a handler answers, the list of requests sent is as before, and
    a 200 can only come from the cache. *)
Theorem unconfigured_sends_nothing (E : env) (rem : remote) (fuel : nat)
    (now later : Z) (q : request) (w : world) (r : response) (w' : world) :
  configured E = false ->
  handleMovers E rem fuel now later q w = Some (r, w') \/
  handler E rem fuel now later q w = Some (r, w') ->
  sent w' = sent w /\
  (statusCode r = 200 ->
   exists p C1,
     cacheGet now (cacheKey_of (toJql (q_filter q)) q) (CACHE w) = (Some p, C1) /\
     resp_body r = Result p).
Proof.
  intros HE. open_handlers; try (rewrite HE in *; discriminate);
    (split; [reflexivity | try discriminate; eauto]).
Qed.


(** X6. A request touches the cache under its own key only, and a request
    that is not answered with 200 adds nothing to the cache: errors are
    never cached. *)
Theorem handler_cache_effect (E : env) (rem : remote) (fuel : nat)
    (now later : Z) (q : request) (w : world) (r : response) (w' : world) :
  handleMovers E rem fuel now later q w = Some (r, w') \/
  handler E rem fuel now later q w = Some (r, w') ->
  (forall k, k <> cacheKey_of (toJql (q_filter q)) q ->
             CACHE w' !! k = CACHE w !! k) /\
  (statusCode r <> 200 -> CACHE w' ⊆ CACHE w).
Proof.
  open_handlers;
    try match goal with
        | H : cacheGet _ _ _ = _ |- _ =>
            apply cacheGet_effect in H as (Hframe & Hsub & _)
        end;
    (split; [| auto; try congruence]);
    try reflexivity; try (intros k Hk; now apply Hframe);
    intros k Hk; unfold cacheSet; rewrite lookup_insert_ne by congruence;
    now apply Hframe.
Qed.

End EffectFacts.

Section RepeatFacts.
Context {R : Runtime}.
Import Str StrFacts.

Ltac open_handlers :=
  unfold handleMovers, handler, searchIssues, countTransitionsByUser,
    discoverTransitionPairs;
  intros [? | ?]; repeat case_match; simplify_eq; simpl in *.


(** X8. On a cache miss with a limit that is not negative, a 200 answer
    lists at most [limit] users (or transitions), so at most 100, and its
    [totalIssues] is the number of issues that the search returned. *)
Theorem answer_size (E : env) (rem : remote) (fuel : nat) (now later : Z)
    (q : request) (w : world) (r : response) (w' : world) :
  handleMovers E rem fuel now later q w = Some (r, w') \/
  handler E rem fuel now later q w = Some (r, w') ->
  fst (cacheGet now (cacheKey_of (toJql (q_filter q)) q) (CACHE w)) = None ->
  0 <= limit_of q ->
  limit_of q <= 100 /\
  (forall p, resp_body r = Result (Users p) ->
     Z.of_nat (length (users p)) <= limit_of q /\
     exists res,
       searchResponse rem (toJql (q_filter q)) (Z.min (maxIssues_of q) 1000)
       = Ok res /\
       totalIssues p = Z.of_nat (length (arr_or_empty res))) /\
  (forall p, resp_body r = Result (Transitions p) ->
     Z.of_nat (length (transitions p)) <= limit_of q /\
     exists res,
       searchResponse rem (toJql (q_filter q)) (Z.min (maxIssues_of q) 1000)
       = Ok res /\
       t_totalIssues p = Z.of_nat (length (arr_or_empty res))).
Proof.
  intros Hrun Hmiss Hlim.
  assert (limit_of q <= 100) as H100 by (unfold limit_of, intParam; lia).
  split; [exact H100|].
  revert Hrun Hmiss. open_handlers; intros Hmiss;
    try match goal with
        | H : cacheGet _ _ _ = _ |- _ => rewrite H in Hmiss; simpl in Hmiss
        end; try discriminate;
    (split; intros p' Hp; simplify_eq; simpl);
    (split; [|eauto]).
  all: match goal with
       | |- Z.of_nat (length (slice0 ?l ?e)) <= _ =>
           pose proof (slice0_length_le l e ltac:(lia)); lia
       end.
Qed.

End RepeatFacts.

(** ** What the tally holds *)

Section CountFacts.
Context {R : Runtime}.
Import Str StrFacts.

Lemma num_or_zero v : num_or (Some v) 0 = v.
Proof. destruct v; reflexivity. Qed.

Lemma credited_nonneg c k evs : 0 <= credited c k evs.
Proof. unfold credited. lia. Qed.

Lemma credited_cons c k ev evs :
  credited c k (ev :: evs)
  = (if eventMatches c (fst ev) (snd ev) && String.eqb (authorName (fst ev)) k
     then 1 else 0) + credited c k evs.
Proof.
  unfold credited. simpl.
  destruct (eventMatches c ev.1 ev.2 && _); simpl length; lia.
Qed.

Lemma bump_positive a m : positive_tally m -> positive_tally (bump a m).
Proof.
  intros Hm k v. rewrite tally_get_bump.
  destruct (String.eqb_spec a k) as [-> | Hne]; [|apply Hm].
  intros [= <-]. destruct (tally_get k m) as [x|] eqn:E.
  - apply Hm in E. rewrite num_or_zero. lia.
  - simpl. lia.
Qed.

Lemma accumulate_get c evs : forall m k,
  positive_tally m ->
  positive_tally (accumulate c evs m) /\
  tally_get k (accumulate c evs m)
  = match tally_get k m with
    | Some v => Some (v + credited c k evs)
    | None => if credited c k evs =? 0 then None
              else Some (credited c k evs)
    end.
Proof.
  induction evs as [|ev evs IH]; intros m k Hm.
  - simpl. split; [exact Hm|].
    destruct (tally_get k m); [f_equal; unfold credited; simpl; lia
                              | reflexivity].
  - simpl accumulate. rewrite credited_cons.
    pose proof (credited_nonneg c k evs) as Hnn.
    destruct (eventMatches c ev.1 ev.2) eqn:Em; simpl andb.
    + destruct (IH (bump (authorName ev.1) m) k (bump_positive _ _ Hm))
        as [Hp ->].
      split; [exact Hp|]. rewrite tally_get_bump.
      destruct (String.eqb_spec (authorName ev.1) k) as [-> | Hne].
      * destruct (tally_get k m) as [x|] eqn:E.
        -- rewrite num_or_zero. f_equal; lia.
        -- simpl num_or.
           destruct (Z.eqb_spec (1 + credited c k evs) 0); [lia|].
           f_equal; lia.
      * destruct (tally_get k m); [f_equal; lia | reflexivity].
    + destruct (IH m k Hm) as [Hp ->]. split; [exact Hp|]. reflexivity.
Qed.

(** X9. The tally gives each author exactly the number of events that
    the transition filter counts for that author, and has no entry for an
    author without such an event. *)
Theorem tally_counts_matching (c : criteria) (evs : list (history * item))
    (k : string) :
  tally_get k (accumulate c evs [])
  = if credited c k evs =? 0 then None else Some (credited c k evs).
Proof.
  apply (accumulate_get c evs [] k). intros k' v. discriminate.
Qed.

Lemma authorName_nonempty h : authorName h <> EmptyString.
Proof.
  unfold authorName. destruct (h_author h) as [a|]; [|discriminate].
  destruct (displayName a) as [[|]|]; simpl; try discriminate;
    destruct (name a) as [[|]|]; simpl; try discriminate;
    destruct (accountId a) as [[|]|]; simpl; discriminate.
Qed.

Lemma accumulate_keys c evs : forall m k,
  In k (map fst (accumulate c evs m)) ->
  In k (map fst m) \/ exists ev, In ev evs /\ k = authorName (fst ev).
Proof.
  induction evs as [|ev evs IH]; intros m k; simpl; [auto|].
  intros Hin. apply IH in Hin as [Hin | (ev' & Hev & ->)]; [|eauto].
  destruct (eventMatches c ev.1 ev.2); [|auto].
  unfold bump in Hin. apply tally_set_keys in Hin as [-> | Hin]; eauto.
Qed.

Lemma tally_sum_set k v m :
  foldr Z.add 0 (map snd (tally_set k v m))
  = foldr Z.add 0 (map snd m) - num_or (tally_get k m) 0 + v.
Proof.
  induction m as [|[k0 v0] m IH]; simpl; [lia|].
  destruct (String.eqb_spec k0 k) as [-> | Hne]; simpl.
  - destruct v0; lia.
  - rewrite IH. lia.
Qed.

Lemma accumulate_sum c evs : forall m,
  foldr Z.add 0 (map snd (accumulate c evs m))
  = foldr Z.add 0 (map snd m)
    + Z.of_nat (length (List.filter
                          (fun ev => eventMatches c (fst ev) (snd ev)) evs)).
Proof.
  induction evs as [|ev evs IH]; intros m; simpl; [lia|].
  rewrite IH. destruct (eventMatches c ev.1 ev.2); simpl length; [|lia].
  unfold bump. rewrite tally_sum_set. lia.
Qed.

(** X10. In the ranking no user appears twice, no user name is empty,
    every count is at least 1, and the counts add up to the number of
    events that the transition filter counts: no event is lost and none is
    counted twice. *)
Theorem ranking_accounts_for_events (c : criteria)
    (evs : list (history * item)) :
  let result := ranked (accumulate c evs []) in
  List.NoDup (map fst result) /\
  Forall (fun e => fst e <> EmptyString /\ 1 <= snd e) result /\
  foldr Z.add 0 (map snd result)
  = Z.of_nat (length (List.filter
                        (fun ev => eventMatches c (fst ev) (snd ev)) evs)).
Proof.
  cbv zeta.
  assert (Permutation (ranked (accumulate c evs [])) (accumulate c evs []))
    as HP by apply sort_by_Permutation.
  assert (List.NoDup (map fst (accumulate c evs []))) as Hnd
    by (apply accumulate_NoDup; constructor).
  split; [|split].
  - eapply Permutation_NoDup; [|exact Hnd].
    apply Permutation_map. now symmetry.
  - rewrite HP. apply Forall_forall. intros [k v] Hin.
    apply list_elem_of_In in Hin. simpl. split.
    + apply (in_map fst) in Hin. simpl in Hin.
      apply accumulate_keys in Hin as [[] | (ev & _ & ->)].
      apply authorName_nonempty.
    + apply tally_In_get in Hin; [|exact Hnd].
      destruct (accumulate_get c evs [] k) as [Hpos _];
        [intros ? ?; discriminate|].
      now apply Hpos in Hin.
  - assert (forall l1 l2 : list Z, Permutation l1 l2 ->
              foldr Z.add 0 l1 = foldr Z.add 0 l2) as Hsum.
    { induction 1; simpl; lia. }
    rewrite (Hsum _ _ (Permutation_map snd HP)).
    rewrite (accumulate_sum c evs []). simpl. lia.
Qed.

End CountFacts.

(** ** Reading a whole changelog *)

Section ReadFacts.
Variable rem : remote.
Variable step : tally -> history -> tally.

Lemma pageLoop_reads (L : list history) (issueId : string) :
  (forall k s, 0 <= s ->
     exists n, (0 < n)%nat /\
       changelogResponse rem issueId k s 100
       = Ok {| total := Some (Z.of_nat (length L));
               values := Some (take n (drop (Z.to_nat s) L)) |}) ->
  forall fuel k pre rest a,
    L = pre ++ rest -> (length rest < fuel)%nat ->
    exists a',
      pageLoop rem step fuel issueId k (Z.of_nat (length pre)) a
      = Some (Ok tt, a') /\
      counts a' = fold_left step rest (counts a) /\
      (length (calls a') <= length (calls a) + Nat.max 1 (length rest))%nat.
Proof.
  intros Hrem. induction fuel as [|fuel IH]; intros k pre rest a HL Hfuel;
    [lia|].
  destruct (Hrem k (Z.of_nat (length pre)) ltac:(lia)) as (n & Hn & Hresp).
  rewrite Nat2Z.id, HL, drop_app_length in Hresp.
  cbn [pageLoop]. rewrite Hresp. cbn [total values arr_or_empty].
  assert (num_or (Some (Z.of_nat (length (pre ++ rest)))) 0
          = Z.of_nat (length (pre ++ rest))) as ->
    by (destruct (Z.of_nat (length (pre ++ rest))); reflexivity).
  destruct rest as [|h rest].
  { rewrite take_nil. cbn [length Nat.eqb].
    eexists. split; [reflexivity|]. cbn [counts calls fold_left].
    split; [reflexivity|]. rewrite length_app. simpl. lia. }
  destruct n as [|n]; [lia|]. cbn [length] in Hfuel.
  cbn [take length Nat.eqb].
  rewrite length_app. cbn [length].
  destruct (Z.ltb_spec (Z.of_nat (length pre) + Z.of_nat (S (length (take n rest))))
              (Z.of_nat (length pre + S (length rest)))) as [Hlt | Hge].
  - rewrite length_take in Hlt.
    edestruct (IH (S k) (pre ++ h :: take n rest) (drop n rest)
                 {| counts := fold_left step (h :: take n rest) (counts a);
                    calls := calls a ++ [CallChangelog issueId
                                           (Z.of_nat (length pre)) 100] |})
      as (a' & Hrun & Hcounts & Hcalls).
    + rewrite HL, <- app_assoc. cbn [app]. now rewrite take_drop.
    + rewrite length_drop. lia.
    + exists a'. split; [|split].
      * rewrite <- Hrun. f_equal.
        rewrite length_app. cbn [length]. rewrite length_take. lia.
      * rewrite Hcounts. cbn [counts].
        rewrite <- fold_left_app. cbn [app]. now rewrite take_drop.
      * cbn [calls] in Hcalls. rewrite length_app in Hcalls.
        rewrite length_drop in Hcalls. simpl in Hcalls |- *. lia.
  - rewrite length_take in Hge.
    assert (take n rest = rest) as -> by (apply take_ge; lia).
    eexists. split; [reflexivity|]. cbn [counts calls].
    split; [reflexivity|]. rewrite length_app. simpl. lia.
Qed.

(** X11. Against a remote that serves one changelog, any positive number
    of histories per page, and reports its length as the total,
    [processIssue] applies the loop body to every history exactly once and
    in order, with at most one request per history (one request when the
    changelog is empty); more fuel changes nothing. *)
Theorem pagination_reads_everything (L : list history) (i : issue) (a : agg) :
  (forall k s, 0 <= s ->
     exists n, (0 < n)%nat /\
       changelogResponse rem (id i) k s 100
       = Ok {| total := Some (Z.of_nat (length L));
               values := Some (take n (drop (Z.to_nat s) L)) |}) ->
  exists a',
    counts a' = fold_left step L (counts a) /\
    (length (calls a') <= length (calls a) + Nat.max 1 (length L))%nat /\
    forall fuel, (length L < fuel)%nat ->
                 processIssue rem step fuel i a = Some (Ok tt, a').
Proof.
  intros Hrem.
  destruct (pageLoop_reads L (id i) Hrem (S (length L)) 0%nat [] L a
              eq_refl ltac:(lia)) as (a' & Hrun & Hcounts & Hcalls).
  exists a'. split; [exact Hcounts|]. split; [exact Hcalls|].
  intros fuel Hfuel. unfold processIssue.
  eapply pageLoop_more_fuel; [|exact Hrun]. lia.
Qed.

End ReadFacts.

(** ** The worker pool: order of work, and the limit NaN *)

Section MoreLimitFacts.
Import mapLimit.

Lemma sublist_middle {A} (l1 l2 pre : list A) (x : A) :
  sublist (l1 ++ x :: l2) pre -> sublist (l1 ++ l2) pre.
Proof.
  intros H. etransitivity; [|exact H].
  apply sublist_app; [reflexivity|]. now apply sublist_cons.
Qed.

(** X12. In every state that [mapLimit] reaches, the items still to do
    are a tail of the input and the items in [pending] are a sub-sequence
    of the part already taken: every item is handed out at most as often
    as the input lists it, in the order of the input, and nothing else is. *)
Theorem mapLimit_takes_in_order (limit : jsnum) (arr : list issue) (p : pool) :
  reachable limit arr p ->
  exists taken,
    arr = taken ++ todo p /\
    sublist (map fst (pending p)) taken /\
    (at_loop p = AwaitAll -> todo p = []).
Proof.
  induction 1 as [|p q Hr (taken & Harr & Hsub & Hall) Hs].
  - exists []. simpl. split; [reflexivity|]. split; [constructor | discriminate].
  - destruct Hs; simpl in *.
    + exists (taken ++ [x]). split; [now rewrite <- app_assoc|]. split.
      * rewrite map_app. simpl. apply sublist_app; [exact Hsub | reflexivity].
      * destruct (size_reaches _ _); discriminate.
    + exists taken. rewrite map_app in *. simpl in *. auto.
    + exists taken. rewrite map_app in *. simpl in *. auto.
    + exists taken. split; [exact Harr|]. split.
      * rewrite map_app in *. simpl in Hsub.
        now apply sublist_middle in Hsub.
      * destruct lp; simpl; auto; discriminate.
    + exists taken. split; [exact Harr|]. split; [exact Hsub | discriminate].
    + exists taken. split; [exact Harr|]. split; [exact Hsub | discriminate].
    + exists taken. auto.
Qed.

Lemma nan_spawns_all (pre rest : list issue) :
  reachable NaN (pre ++ rest)
    {| todo := rest; pending := map (fun x => (x, Created)) pre;
       at_loop := Looping |} ->
  reachable NaN (pre ++ rest)
    {| todo := []; pending := map (fun x => (x, Created)) (pre ++ rest);
       at_loop := Looping |}.
Proof.
  revert pre. induction rest as [|x rest IH]; intros pre Hr.
  - now rewrite app_nil_r in *.
  - replace (pre ++ x :: rest) with ((pre ++ [x]) ++ rest) in *
      by (now rewrite <- app_assoc).
    apply IH. eapply reach_step; [exact Hr|].
    rewrite map_app. simpl map.
    exact (step_spawn NaN x rest (map (fun x => (x, Created)) pre)).
Qed.

(** X13. A [MOVERS_CONCURRENCY] that does not read as a number makes the
    limit NaN, and with the limit NaN the test [pending.size >= limit]
    never holds: for every list of issues the state in which all of them
    are pending at once is reached. *)
Theorem nan_limit_is_no_limit (arr : list issue) :
  concurrency (Some NaN) = NaN /\
  reachable (concurrency (Some NaN)) arr
    {| todo := []; pending := map (fun x => (x, Created)) arr;
       at_loop := Looping |}.
Proof.
  split; [reflexivity|].
  change (concurrency (Some NaN)) with NaN.
  apply (nan_spawns_all [] arr). apply reach_init.
Qed.

End MoreLimitFacts.

(** ** Current counts *)

Section CountsFacts.
Context {R : Runtime}.
Import Str StrFacts.

Lemma nonempty_false s : nonempty s = false <-> s = EmptyString.
Proof.
  unfold nonempty. destruct s; simpl; split; intros H;
    try reflexivity; discriminate H.
Qed.

Lemma fetchFilterCount_cases (K : counts_config) (rem : count_remote)
    (f : string) :
  let jql := toJql (Some f) in
  let ready := cc_configured K = true /\ f <> EmptyString /\
               cleanEnv (Some f) <> EmptyString in
  (~ ready /\ exists e, fetchFilterCount K rem f = (Throw e, [])) \/
  (ready /\ exists n, rem V3 jql = Ok (Some n) /\
                      fetchFilterCount K rem f = (Ok n, [CallCount V3 jql])) \/
  (ready /\ (forall m, rem V3 jql <> Ok (Some m)) /\
   exists o, fetchFilterCount K rem f
             = (o, [CallCount V3 jql; CallCount V2 jql]) /\
             forall n, o = Ok n <-> rem V2 jql = Ok (Some n)).
Proof.
  cbv zeta. unfold fetchFilterCount.
  rewrite <- (toJql_empty_cases (Some f)).
  destruct (cc_configured K).
  2: { left. split; [intros (H & _); discriminate | simpl; eauto]. }
  destruct f as [|c f].
  { left. split; [intros (_ & H & _); congruence | simpl; eauto]. }
  destruct (toJql (Some (String c f))) as [|d j] eqn:Ej.
  { left. split; [intros (_ & _ & H); congruence | simpl; eauto]. }
  assert (true = true /\ String c f <> EmptyString /\
          String d j <> EmptyString) as Hready by (repeat split; discriminate).
  right. simpl negb. simpl orb. cbv iota.
  destruct (rem V3 (String d j)) as [[n3|]|e3] eqn:E3.
  - left. split; [exact Hready | eauto].
  - right. split; [exact Hready|]. split; [intros m; discriminate|].
    destruct (rem V2 (String d j)) as [[n2|]|e2];
      (eexists; split; [reflexivity|]); intros n; split; congruence.
  - right. split; [exact Hready|]. split; [intros m; discriminate|].
    destruct (rem V2 (String d j)) as [[n2|]|e2];
      (eexists; split; [reflexivity|]); intros n; split; congruence.
Qed.

(** X14. [fetchFilterCount] makes no request when the configuration or
    the filter is missing or the filter cleans to nothing, and then it
    throws. Otherwise it asks version 3 once, and version 2 once more
    exactly when version 3 gave no numeric total; it never makes a third
    request. It returns a number exactly when the last request it made
    reported that number. *)
Theorem fetchFilterCount_protocol (K : counts_config) (rem : count_remote)
    (f : string) :
  let jql := toJql (Some f) in
  let o := fst (fetchFilterCount K rem f) in
  let log := snd (fetchFilterCount K rem f) in
  let ready := cc_configured K = true /\ f <> EmptyString /\
               cleanEnv (Some f) <> EmptyString in
  (log = [] <-> ~ ready) /\
  (~ ready -> exists e, o = Throw e) /\
  (ready -> (exists n, rem V3 jql = Ok (Some n)) ->
   log = [CallCount V3 jql]) /\
  (ready -> (forall n, rem V3 jql <> Ok (Some n)) ->
   log = [CallCount V3 jql; CallCount V2 jql]) /\
  (forall n, o = Ok n <->
     ready /\
     (rem V3 jql = Ok (Some n) \/
      (forall m, rem V3 jql <> Ok (Some m)) /\ rem V2 jql = Ok (Some n))).
Proof.
  cbv zeta.
  destruct (fetchFilterCount_cases K rem f)
    as [(Hn & e & ->) | [(Hr & n3 & H3 & ->) | (Hr & H3 & o & -> & Ho)]];
    cbn [fst snd].
  - split; [tauto|]. split; [eauto|]. split; [tauto|]. split; [tauto|].
    intros n. split; [discriminate | tauto].
  - split; [split; [discriminate | tauto]|]. split; [tauto|].
    split; [reflexivity|]. split.
    + intros _ Hno. exfalso. now apply (Hno n3).
    + intros n. split.
      * intros [= <-]. auto.
      * intros (_ & [Hn | (Hno & _)]); [congruence|].
        exfalso. now apply (Hno n3).
  - split; [split; [discriminate | tauto]|]. split; [tauto|].
    split; [intros _ (n & Hn); exfalso; now apply (H3 n)|].
    split; [reflexivity|].
    intros n. rewrite Ho. split.
    + intros Hn. auto.
    + intros (_ & [Hn | (_ & Hn)]); [exfalso; now apply (H3 n) | exact Hn].
Qed.

Lemma all_settled_inl {A} (os : list (outcome A)) vs :
  all_settled os = inl vs -> os = map Ok vs.
Proof.
  revert vs. induction os as [|o os IH]; intros vs; simpl.
  - intros [= <-]. reflexivity.
  - destruct o as [a|e]; destruct (all_settled os) as [vs'|es];
      try discriminate.
    intros [= <-]. simpl. now rewrite (IH vs' eq_refl).
Qed.

Lemma all_settled_inr {A} (os : list (outcome A)) es :
  all_settled os = inr es ->
  es <> [] /\ forall e, In e es -> In (Throw e) os.
Proof.
  revert es. induction os as [|o os IH]; intros es; simpl; [discriminate|].
  destruct o as [a|e]; destruct (all_settled os) as [vs'|es'];
    intros [= <-].
  - destruct (IH es' eq_refl) as [Hne Hin]. split; [exact Hne|].
    intros e He. right. now apply Hin.
  - split; [discriminate|]. intros e' [<- | []]. now left.
  - destruct (IH es' eq_refl) as [Hne Hin]. split; [discriminate|].
    intros e' [<- | He]; [now left | right; now apply Hin].
Qed.

Lemma all_settled_same {A} (os : list (outcome A)) (e : string) :
  os <> [] -> (forall o, In o os -> o = Throw e) ->
  exists es, all_settled os = inr es /\ es <> [] /\
             forall e', In e' es -> e' = e.
Proof.
  induction os as [|o os IH]; intros Hne Hall; [congruence|].
  rewrite (Hall o (or_introl eq_refl)). simpl.
  destruct os as [|o' os].
  - simpl. exists [e]. repeat split; [discriminate|].
    intros e' [<- | []]. reflexivity.
  - destruct IH as (es & -> & _ & Hes); [discriminate | |].
    + intros o'' Ho. apply Hall. now right.
    + exists (e :: es). repeat split; [discriminate|].
      intros e' [<- | He]; [reflexivity | now apply Hes].
Qed.

(** X15. [handleCounts] always answers 200. When no task fails, [qa] and
    [dev] are the counts of the two required filters, and each optional
    field holds the count of its own filter when that filter is configured
    and is absent when it is not: the results are read back in the order in
    which the tasks were pushed. *)
Theorem handleCounts_fields (K : counts_config) (rem : count_remote)
    (first_rejection : list string -> string) :
  let status := fst (fst (handleCounts K rem first_rejection)) in
  let body := snd (fst (handleCounts K rem first_rejection)) in
  status = 200 /\
  (c_error body = None ->
   reports K rem (JIRA_FILTER_QA_ID K) (c_qa body) /\
   reports K rem (JIRA_FILTER_DEV_ID K) (c_dev body) /\
   is_Some (c_qa body) /\ is_Some (c_dev body) /\
   reports K rem (JIRA_DEV_TODAY K) (c_devToday body) /\
   reports K rem (JIRA_QA_TODAY K) (c_qaToday body) /\
   reports K rem (JIRA_PRE_DEV K) (c_preDev body) /\
   reports K rem (JIRA_PRE_QA K) (c_preQa body) /\
   reports K rem (JIRA_DEPLOYMENTREADY K) (c_deploymentReady body)).
Proof.
  cbv zeta. unfold handleCounts.
  destruct (all_settled _) as [results|es] eqn:Hall.
  2: { split; [reflexivity | discriminate]. }
  apply all_settled_inl in Hall. revert Hall.
  unfold count_tasks.
  assert (forall f n, fst (fetchFilterCount K rem f) = Ok n ->
                      nonempty f = true) as Hcfg.
  { intros f n. unfold fetchFilterCount.
    destruct (cc_configured K), (nonempty f); simpl; congruence. }
  destruct (nonempty (JIRA_DEV_TODAY K)) eqn:E1,
           (nonempty (JIRA_QA_TODAY K)) eqn:E2,
           (nonempty (JIRA_PRE_DEV K)) eqn:E3,
           (nonempty (JIRA_PRE_QA K)) eqn:E4,
           (nonempty (JIRA_DEPLOYMENTREADY K)) eqn:E5;
    cbn [app map fst]; intros Hall;
    repeat (destruct results as [|? results]; [discriminate Hall|]);
    try (destruct results; [|discriminate Hall]);
    cbn [map] in Hall; simplify_eq;
    (split; [reflexivity|]); intros _;
    unfold reports, next_result; cbn;
    rewrite ?E1, ?E2, ?E3, ?E4, ?E5;
    repeat match goal with
           | |- _ /\ _ => split
           | |- is_Some _ => eexists; reflexivity
           | |- _ = _ => first [reflexivity | assumption | eapply Hcfg; eassumption]
           end.
Qed.

(** X16. [handleCounts] answers with the zero-filled body and an error
    message exactly when one of its tasks fails, and the message is that of
    a failed task; every count and every fetch of a task is made whether or
    not another task fails. Without the Jira configuration no request is
    made and the message names the missing configuration. *)
Theorem handleCounts_degrades (K : counts_config) (rem : count_remote)
    (first_rejection : list string -> string) :
  (forall es, es <> [] -> In (first_rejection es) es) ->
  let body := snd (fst (handleCounts K rem first_rejection)) in
  let log := snd (handleCounts K rem first_rejection) in
  (c_error body <> None <->
   exists f e, In f (count_tasks K) /\
               fst (fetchFilterCount K rem f) = Throw e) /\
  (forall e, c_error body = Some e ->
     body = degraded K e /\
     exists f, In f (count_tasks K) /\
               fst (fetchFilterCount K rem f) = Throw e) /\
  (forall c, In c log <->
     exists f, In f (count_tasks K) /\
               In c (snd (fetchFilterCount K rem f))) /\
  (cc_configured K = false ->
   body = degraded K "Missing Jira config or filter/JQL" /\ log = []).
Proof.
  intros Hpick. cbv zeta.
  assert (forall c,
            In c (concat (map snd (map (fetchFilterCount K rem) (count_tasks K))))
            <-> exists f, In f (count_tasks K) /\
                          In c (snd (fetchFilterCount K rem f))) as Hlog.
  { intros c. rewrite in_concat. split.
    - intros (l & Hl & Hc). rewrite map_map in Hl.
      apply in_map_iff in Hl as (f & <- & Hf). eauto.
    - intros (f & Hf & Hc). exists (snd (fetchFilterCount K rem f)).
      split; [|exact Hc]. rewrite map_map. apply in_map_iff. eauto. }
  assert (forall e, In (Throw e)
                      (map fst (map (fetchFilterCount K rem) (count_tasks K))) <->
                    exists f, In f (count_tasks K) /\
                              fst (fetchFilterCount K rem f) = Throw e) as Hthrow.
  { intros e. rewrite map_map, in_map_iff. split; intros (f & ? & ?); eauto. }
  unfold handleCounts.
  destruct (all_settled _) as [results|es] eqn:Hall.
  - apply all_settled_inl in Hall.
    repeat (destruct (next_result _ _ _)). cbn [fst snd c_error].
    split; [|split; [|split]].
    + split; [congruence|]. intros (f & e & Hf & He).
      assert (In (Throw e) (map Ok results)) as Hin
        by (rewrite <- Hall; apply Hthrow; eauto).
      apply in_map_iff in Hin as (? & ? & _). discriminate.
    + discriminate.
    + exact Hlog.
    + intros Hcfg. exfalso.
      assert (In (fst (fetchFilterCount K rem (JIRA_FILTER_QA_ID K)))
                (map Ok results)) as Hin.
      { rewrite <- Hall, map_map. apply in_map_iff.
        exists (JIRA_FILTER_QA_ID K). split; [reflexivity|].
        unfold count_tasks. now left. }
      apply in_map_iff in Hin as (v & Hv & _).
      unfold fetchFilterCount in Hv. rewrite Hcfg in Hv. discriminate.
  - pose proof (all_settled_inr _ _ Hall) as [Hne Hes].
    cbn [fst snd c_error degraded].
    pose proof (Hpick es Hne) as Hin. apply Hes, Hthrow in Hin.
    split; [|split; [|split]].
    + split; [eauto|discriminate]. destruct Hin as (f & ? & ?). eauto.
    + intros e [= <-]. split; [reflexivity | exact Hin].
    + exact Hlog.
    + intros Hcfg.
      destruct (all_settled_same
                  (map fst (map (fetchFilterCount K rem) (count_tasks K)))
                  "Missing Jira config or filter/JQL")
        as (es' & Hes' & Hne' & Hsame).
      * unfold count_tasks. discriminate.
      * intros o Ho. rewrite map_map in Ho.
        apply in_map_iff in Ho as (f & <- & _).
        unfold fetchFilterCount. now rewrite Hcfg.
      * assert (es' = es) as -> by congruence. split.
        -- now rewrite (Hsame _ (Hpick es Hne)).
        -- assert (forall c, ~ In c (concat (map snd
                     (map (fetchFilterCount K rem) (count_tasks K)))))
             as Hnone.
           { intros c Hc. apply Hlog in Hc as (f & _ & Hc).
             unfold fetchFilterCount in Hc. rewrite Hcfg in Hc. destruct Hc. }
           destruct (concat _) as [|c l]; [reflexivity|].
           exfalso. apply (Hnone c). now left.
Qed.

End CountsFacts.

(** ** The environment file *)

Section EnvFacts.

Lemma loadEnv_line_keeps env line k v :
  env !! k = Some v -> loadEnv_line env line !! k = Some v.
Proof.
  intros Hk. unfold loadEnv_line, set_if_absent.
  destruct (parseEnvLine line) as [[k' v']|]; [|exact Hk]. simpl.
  destruct (env !! k') eqn:E; [exact Hk|].
  rewrite lookup_insert_ne; [exact Hk | congruence].
Qed.

Lemma loadEnv_lines_keep lines : forall env k v,
  env !! k = Some v -> fold_left loadEnv_line lines env !! k = Some v.
Proof.
  induction lines as [|line lines IH]; intros env k v Hk; simpl; [exact Hk|].
  apply IH. now apply loadEnv_line_keeps.
Qed.

Lemma loadEnv_line_defines env line k v :
  parseEnvLine line = Some (k, v) ->
  loadEnv_line env line !! k = Some (default v (env !! k)).
Proof.
  intros Hp. unfold loadEnv_line, set_if_absent. rewrite Hp. simpl.
  destruct (env !! k) eqn:E; simpl; [exact E | apply lookup_insert_eq].
Qed.

Lemma loadEnv_line_noop env line :
  (forall kv, parseEnvLine line = Some kv -> is_Some (env !! kv.1)) ->
  loadEnv_line env line = env.
Proof.
  intros H. unfold loadEnv_line, set_if_absent.
  destruct (parseEnvLine line) as [kv|]; [|reflexivity].
  destruct (H kv eq_refl) as [x ->]. reflexivity.
Qed.

Lemma loadEnv_lines_noop lines env :
  (forall line kv, In line lines -> parseEnvLine line = Some kv ->
                   is_Some (env !! kv.1)) ->
  fold_left loadEnv_line lines env = env.
Proof.
  induction lines as [|line lines IH]; intros H; simpl; [reflexivity|].
  rewrite loadEnv_line_noop.
  - apply IH. intros l kv Hl. apply H. now right.
  - intros kv. apply H. now left.
Qed.

Lemma loadEnv_lines_define lines : forall env line kv,
  In line lines -> parseEnvLine line = Some kv ->
  is_Some (fold_left loadEnv_line lines env !! kv.1).
Proof.
  induction lines as [|l lines IH]; intros env line [k v] Hin Hp; [destruct Hin|].
  cbn [fold_left fst]. destruct Hin as [-> | Hin].
  - eexists. apply loadEnv_lines_keep.
    apply (loadEnv_line_defines env line k v Hp).
  - apply (IH _ line (k, v) Hin Hp).
Qed.

(** X17. [loadEnv] never changes a variable that the process already
    has, and a file that cannot be read changes nothing. *)
Theorem loadEnv_keeps_process_env (text : option string)
    (env : gmap string string) (k v : string) :
  loadEnv None env = env /\
  (env !! k = Some v -> loadEnv text env !! k = Some v).
Proof.
  split; [reflexivity|]. intros Hk.
  destruct text as [t|]; [|exact Hk]. now apply loadEnv_lines_keep.
Qed.

(** X18. Loading the same file a second time changes nothing. *)
Theorem loadEnv_idempotent (text : option string) (env : gmap string string) :
  loadEnv text (loadEnv text env) = loadEnv text env.
Proof.
  destruct text as [t|]; [|reflexivity]. simpl.
  apply loadEnv_lines_noop. intros line kv Hin Hp.
  now apply (loadEnv_lines_define _ env line).
Qed.


End EnvFacts.

(** ** Pair keys of the discovery mode *)

Section PairFacts.
Import Str StrFacts.

Lemma append_cons (x : ascii) (a b : string) :
  String x a +:+ b = String x (a +:+ b).
Proof. reflexivity. Qed.

Lemma append_assoc (a b c : string) : (a +:+ b) +:+ c = a +:+ (b +:+ c).
Proof.
  induction a as [|x a IH]; [reflexivity|].
  now rewrite !append_cons, IH.
Qed.

Lemma append_empty_r (a : string) : a +:+ EmptyString = a.
Proof.
  induction a as [|x a IH]; [reflexivity|]. now rewrite append_cons, IH.
Qed.

Lemma split_go_step (sep cur : string) (c : ascii) (s : string) :
  split_go sep 0 cur (String c s)
  = if startsWith sep (String c s)
    then cur :: split_go sep (String.length sep - 1) Str.empty s
    else split_go sep 0 (cur +:+ String c EmptyString) s.
Proof. reflexivity. Qed.

Lemma arrow_no_match (c : ascii) (s : string) :
  Ascii.eqb c (ascii_of_nat 226) = false ->
  startsWith arrow (String c s) = false.
Proof.
  intros H. unfold arrow. now rewrite startsWith_cons, Ascii.eqb_sym, H.
Qed.

Lemma split_go_free (s : string) : forall cur,
  arrow_free s = true -> split_go arrow 0 cur s = [cur +:+ s].
Proof.
  induction s as [|c s IH]; intros cur H.
  - now rewrite append_empty_r.
  - apply andb_prop in H as [Hc Hs]. apply negb_true_iff in Hc.
    rewrite split_go_step, (arrow_no_match c s Hc), (IH _ Hs), append_assoc.
    reflexivity.
Qed.

Lemma split_go_arrow (cur b : string) :
  split_go arrow 0 cur (arrow +:+ b) = cur :: split_go arrow 0 Str.empty b.
Proof. reflexivity. Qed.

Lemma split_go_pair (a : string) : forall cur b,
  arrow_free a = true -> arrow_free b = true ->
  split_go arrow 0 cur (a +:+ arrow +:+ b) = [cur +:+ a; b].
Proof.
  induction a as [|c a IH]; intros cur b Ha Hb.
  - rewrite append_empty_r.
    change (EmptyString +:+ arrow +:+ b) with (arrow +:+ b).
    rewrite split_go_arrow, (split_go_free b _ Hb). reflexivity.
  - apply andb_prop in Ha as [Hc Ha]. apply negb_true_iff in Hc.
    rewrite append_cons, split_go_step, (arrow_no_match c _ Hc).
    rewrite (IH _ b Ha Hb), append_assoc. reflexivity.
Qed.

(** X20. The discovery mode packs a transition into the key
    [from→to] and unpacks it by splitting at the arrow. For status names
    that do not contain the first byte of the arrow (all ASCII names) the
    entry comes back with the same [from] and [to], and its key is the key
    that was counted. *)
Theorem pair_key_round_trip (a b : string) (n : Z) :
  arrow_free a = true -> arrow_free b = true ->
  toPair (a +:+ arrow +:+ b, n)
  = {| pe_from := Some a; pe_to := Some b; pe_count := n |} /\
  pairKey (toPair (a +:+ arrow +:+ b, n)) = a +:+ arrow +:+ b.
Proof.
  intros Ha Hb. unfold toPair, split. cbn [fst snd].
  change Str.empty with EmptyString.
  rewrite (split_go_pair a EmptyString b Ha Hb). split; reflexivity.
Qed.

End PairFacts.

(** ** The countdown *)

Section CountdownFacts.

Lemma two_digits_below_100 (n : nat) :
  (n < 60)%nat -> String.length (two_digits (Z.of_nat n)) = 2%nat.
Proof.
  intros H. do 60 (destruct n as [|n]; [reflexivity|]). lia.
Qed.

(** X21. For a time left that is not negative, the days, hours, minutes
    and seconds that [tick] displays add up to the whole seconds left,
    hours stay below 24 and minutes and seconds below 60, and each of the
    three is shown with exactly two characters. *)
Theorem countdown_adds_up (diff : Z) :
  0 <= diff ->
  let '(days, hours, mins, secs) := countdown diff in
  days * 86400 + hours * 3600 + mins * 60 + secs = diff / 1000 /\
  0 <= days /\ 0 <= hours < 24 /\ 0 <= mins < 60 /\ 0 <= secs < 60 /\
  String.length (two_digits hours) = 2%nat /\
  String.length (two_digits mins) = 2%nat /\
  String.length (two_digits secs) = 2%nat.
Proof.
  intros Hd. unfold countdown. cbv zeta.
  assert (0 <= diff / 1000) as Hsec by (apply Z.div_pos; lia).
  set (sec := diff / 1000) in *.
  rewrite !Z.rem_mod_nonneg by lia.
  assert (0 <= sec mod 86400 / 3600 < 24) as Hh
    by (pose proof (Z.mod_pos_bound sec 86400 ltac:(lia));
        split; [apply Z.div_pos; lia | apply Z.div_lt_upper_bound; lia]).
  assert (0 <= sec mod 3600 / 60 < 60) as Hm
    by (pose proof (Z.mod_pos_bound sec 3600 ltac:(lia));
        split; [apply Z.div_pos; lia | apply Z.div_lt_upper_bound; lia]).
  assert (0 <= sec mod 60 < 60) as Hs by (apply Z.mod_pos_bound; lia).
  assert (forall z, 0 <= z < 60 -> String.length (two_digits z) = 2%nat)
    as Htwo.
  { intros z Hz. rewrite <- (Z2Nat.id z) by lia.
    apply two_digits_below_100. lia. }
  repeat split; try lia; try (apply Htwo; lia).
  - clear Htwo Hh Hm Hs. Z.div_mod_to_equations. lia.
  - apply Z.div_pos; lia.
Qed.

End CountdownFacts.

(** ** Links to the filters *)

Section LinkFacts.
Context {R : Runtime}.
Import Str StrFacts.

Lemma append_nonempty (a b : string) :
  a <> EmptyString -> a +:+ b <> EmptyString.
Proof. destruct a; [congruence | discriminate]. Qed.

(** X22. [buildFilterInfo] keeps the label, and gives an empty link and
    an empty text exactly when the base URL (less one trailing slash) is
    empty or the filter cleans to nothing. For a numeric filter id and a
    base URL the link is [<base>/issues/?filter=] followed by the encoded
    id, and the text is "Filter" and the id. *)
Theorem buildFilterInfo_link (encode : string -> string)
    (base label f : string) :
  let info := buildFilterInfo encode base label f in
  fi_label info = label /\
  (fi_url info = EmptyString <->
   strip_slash base = EmptyString \/ cleanEnv (Some f) = EmptyString) /\
  (fi_text info = EmptyString <-> fi_url info = EmptyString) /\
  (all_digits f = true -> strip_slash base <> EmptyString ->
   fi_url info = strip_slash base +:+ "/issues/?filter=" +:+ encode f /\
   fi_text info = "Filter " +:+ f).
Proof.
  cbv zeta. unfold buildFilterInfo.
  rewrite <- (toJql_empty_cases (Some f)).
  assert (all_digits f = true -> toJql (Some f) = "filter=" +:+ f) as Hid.
  { intros Hd. unfold toJql. rewrite (cleanEnv_digits f Hd).
    destruct f as [|c f]; [discriminate|]. simpl negb. cbv iota.
    now rewrite Hd. }
  destruct (strip_slash base) as [|b0 b] eqn:Eb.
  { simpl. split; [reflexivity|]. split; [tauto|]. split; [tauto|].
    intros _ Hne. congruence. }
  destruct (toJql (Some f)) as [|j0 j] eqn:Ej.
  { simpl. split; [reflexivity|]. split; [tauto|]. split; [tauto|].
    intros Hd _. specialize (Hid Hd). discriminate. }
  simpl nonempty. simpl negb. simpl orb. cbv iota.
  split; [destruct (startsWith _ _); reflexivity|].
  split; [|split].
  - split; [|intros [H | H]; discriminate].
    destruct (startsWith _ _); simpl; discriminate.
  - destruct (startsWith _ _); simpl; split; discriminate.
  - intros Hd _. rewrite (Hid Hd). split; reflexivity.
Qed.

End LinkFacts.

(** ** More of the cache *)

Section MoreCacheFacts.
Context {V : Type}.

(** X23. A second [cacheSet] under a key replaces the first entirely,
    value and expiry (the last write wins), and a [cacheSet] or an expired
    read under one key does not change what is read under another. *)
Theorem cache_last_write_wins (K K' : string) (v1 v2 : V)
    (ttl1 ttl2 : option Z) (t1 t2 t : Z)
    (CACHE : gmap string (cache_entry V)) :
  cacheSet t2 K v2 ttl2 (cacheSet t1 K v1 ttl1 CACHE)
  = cacheSet t2 K v2 ttl2 CACHE /\
  (K' <> K ->
   fst (cacheGet t K' (cacheSet t1 K v1 ttl1 CACHE)) = fst (cacheGet t K' CACHE) /\
   fst (cacheGet t K' (snd (cacheGet t2 K CACHE))) = fst (cacheGet t K' CACHE)).
Proof.
  split.
  - unfold cacheSet. apply insert_insert_eq.
  - intros Hne. split.
    + unfold cacheGet, cacheSet. rewrite lookup_insert_ne by congruence.
      destruct (CACHE !! K') as [hit|]; [|reflexivity].
      destruct (negb _ && _); reflexivity.
    + assert (snd (cacheGet t2 K CACHE) !! K' = CACHE !! K') as Hsame.
      { unfold cacheGet. destruct (CACHE !! K) as [hit|]; [|reflexivity].
        destruct (negb _ && _); simpl; [|reflexivity].
        apply lookup_delete_ne. congruence. }
      unfold cacheGet at 1 3. rewrite Hsame.
      destruct (CACHE !! K') as [hit|]; [|reflexivity].
      destruct (negb _ && _); reflexivity.
Qed.


End MoreCacheFacts.

(** ** The start-up rule for the base URL *)

Section SchemeFacts.
Import Str StrFacts.

(** X25. The start-up rule for [JIRA_BASE_URL] leaves an empty value
    empty and turns every other value into one that starts with
    [http://] or [https://] (in any case of letters); applying it twice
    is the same as applying it once. *)
Theorem with_scheme_normal (base : string) :
  (with_scheme base = EmptyString <-> base = EmptyString) /\
  (base <> EmptyString -> looks_like_url (with_scheme base) = true) /\
  with_scheme (with_scheme base) = with_scheme base.
Proof.
  assert (looks_like_url ("https://" +:+ base) = true) as Hurl by reflexivity.
  unfold with_scheme.
  destruct base as [|c b].
  { split; [tauto|]. split; [congruence | reflexivity]. }
  change (nonempty (String c b)) with true. cbn [andb].
  destruct (looks_like_url (String c b)) eqn:E; cbn [negb].
  - split; [split; discriminate|]. split; [intros _; exact E|].
    change (nonempty (String c b)) with true. cbn [andb]. now rewrite E.
  - split; [split; discriminate|]. split; [intros _; exact Hurl|].
    change (nonempty ("https://" +:+ String c b)) with true. cbn [andb].
    now rewrite Hurl.
Qed.

End SchemeFacts.

(** ** The further properties at work *)

Module MoreChecks.
Import TestRuntime MoreData.

Example cleanEnv_examples :
  cleanEnv (Some "  ' 14621 '  "%string) = "14621"%string /\
  cleanEnv (Some "''"%string) = EmptyString /\
  cleanEnv (Some "'"%string) = EmptyString /\
  cleanEnv (Some "'a"%string) = "'a"%string /\
  cleanEnv None = EmptyString.
Proof. repeat split. Qed.

Lemma handler_status_witness :
  exists r w',
    handleMovers (R := runtime) configured_env three_issues 3 1000 2000
      unknown_filter fresh = Some (r, w') /\
    statusCode r = 500 /\
    (statusCode r = 400 <->
     Str.truthy (q_filter unknown_filter) = false \/
     cleanEnv (q_filter unknown_filter) = EmptyString).
Proof.
  eexists _, _. split; [vm_compute; reflexivity|].
  split; [reflexivity|].
  refine (proj1 (proj2 (handler_status (R := runtime) configured_env
                          three_issues 3 1000 2000 unknown_filter fresh
                          _ _ _))).
  left. vm_compute. reflexivity.
Defined.

Lemma unconfigured_sends_nothing_witness :
  exists r w',
    handler (R := runtime) bare_env three_issues 3 1000 2000 qa_to_done fresh
    = Some (r, w') /\
    statusCode r = 500 /\ sent w' = sent fresh.
Proof.
  eexists _, _. split; [vm_compute; reflexivity|].
  split; [reflexivity|].
  refine (proj1 (unconfigured_sends_nothing (R := runtime) bare_env
                   three_issues 3 1000 2000 qa_to_done fresh _ _ _ _)).
  - reflexivity.
  - right. vm_compute. reflexivity.
Defined.


Lemma handler_cache_effect_witness :
  exists r w',
    handler (R := runtime) configured_env three_issues 3 1000 2000
      unknown_filter warm = Some (r, w') /\
    statusCode r = 500 /\
    CACHE w' !! "other"%string = CACHE warm !! "other"%string.
Proof.
  eexists _, _. split; [vm_compute; reflexivity|].
  split; [reflexivity|].
  refine (proj1 (handler_cache_effect (R := runtime) configured_env
                   three_issues 3 1000 2000 unknown_filter warm _ _ _)
            "other"%string _).
  - right. vm_compute. reflexivity.
  - vm_compute. discriminate.
Defined.


Lemma answer_size_witness :
  exists r w',
    handleMovers (R := runtime) configured_env three_issues 3 1000 2000
      top_one fresh = Some (r, w') /\
    limit_of top_one = 1 /\
    resp_body r = Result (Users
      {| p_filter := Some "100"%string; p_from := None; p_to := None;
         p_notFrom := None; p_notTo := None; p_since := None;
         p_until := None; totalIssues := 3;
         users := [("alice", 2)]%string |}) /\
    forall p, resp_body r = Result (Users p) ->
      Z.of_nat (length (users p)) <= limit_of top_one /\
      exists res,
        searchResponse three_issues (toJql (R := runtime) (q_filter top_one))
          (Z.min (maxIssues_of top_one) 1000) = Ok res /\
        totalIssues p = Z.of_nat (length (arr_or_empty res)).
Proof.
  eexists _, _. split; [vm_compute; reflexivity|].
  split; [reflexivity|]. split; [reflexivity|].
  refine (proj1 (proj2 (answer_size (R := runtime) configured_env
                          three_issues 3 1000 2000 top_one fresh _ _ _ _ _))).
  - left. vm_compute. reflexivity.
  - reflexivity.
  - vm_compute. discriminate.
Defined.

Example tally_examples :
  accumulate (R := runtime) no_criteria
    [(by_alice, qa_done); (by_bob, renamed); (by_bob, open_qa);
     (by_alice, qa_done)] []
  = [("alice", 2); ("bob", 1)]%string /\
  credited (R := runtime) no_criteria "alice"
    [(by_alice, qa_done); (by_bob, renamed); (by_bob, open_qa);
     (by_alice, qa_done)] = 2 /\
  credited (R := runtime) january "bob"
    [(by_alice, qa_done); (by_bob, renamed); (by_bob, open_qa)] = 0.
Proof. repeat split. Qed.

Lemma pagination_reads_everything_witness :
  exists a',
    counts a'
    = fold_left (processHistory (R := runtime) no_criteria) five_histories
        (counts nothing_yet) /\
    (length (calls a') <= length (calls nothing_yet) + Nat.max 1 5)%nat /\
    forall fuel, (5 < fuel)%nat ->
      processIssue (paged 2 five_histories)
        (processHistory (R := runtime) no_criteria) fuel issue_A nothing_yet
      = Some (Ok tt, a').
Proof.
  apply (pagination_reads_everything (paged 2 five_histories)
           (processHistory (R := runtime) no_criteria) five_histories
           issue_A nothing_yet).
  intros k s Hs. exists 2%nat. split; [lia | reflexivity].
Defined.

Example paged_example :
  processIssue (paged 2 five_histories)
    (processHistory (R := runtime) no_criteria) 6 issue_A nothing_yet
  = Some (Ok tt,
          {| counts := [("alice", 3); ("bob", 2)]%string;
             calls := [CallChangelog "10001" 0 100;
                       CallChangelog "10001" 2 100;
                       CallChangelog "10001" 4 100] |}).
Proof. reflexivity. Qed.

Lemma mapLimit_takes_in_order_witness :
  exists taken,
    [issue_A; issue_B; issue_C] = taken ++ mapLimit.todo two_spawned /\
    sublist (map fst (mapLimit.pending two_spawned)) taken /\
    (mapLimit.at_loop two_spawned = mapLimit.AwaitAll ->
     mapLimit.todo two_spawned = []).
Proof.
  apply (mapLimit_takes_in_order (poolLimit limit_two qa_to_done)
           [issue_A; issue_B; issue_C] two_spawned).
  apply Checks.two_spawned_reachable.
Defined.

Example fetchFilterCount_examples :
  fetchFilterCount (R := runtime) board only_v2 "14621"
  = (Ok 33, [CallCount V3 "filter=14621"; CallCount V2 "filter=14621"]) /\
  fetchFilterCount (R := runtime) board only_v2 "status = Broken"
  = (Throw "Unexpected Jira v2 response (no total)",
     [CallCount V3 "status = Broken"; CallCount V2 "status = Broken"]) /\
  fetchFilterCount (R := runtime) board only_v2 "' '"
  = (Throw "Empty JQL", []) /\
  fetchFilterCount (R := runtime) board only_v2 EmptyString
  = (Throw "Missing Jira config or filter/JQL", []).
Proof. repeat split. Qed.

Example handleCounts_example :
  fst (handleCounts (R := runtime) board only_v2 first_of)
  = (200,
     {| c_qa := Some 33; c_dev := Some 71;
        c_devToday := None; c_qaToday := Some 4;
        c_preDev := None; c_preQa := None; c_deploymentReady := Some 71;
        c_initialQa := of_Z 33; c_initialDev := of_Z 71;
        c_refreshSeconds := of_Z 60; c_error := None |}).
Proof. reflexivity. Qed.

Lemma first_of_member (es : list string) : es <> [] -> In (first_of es) es.
Proof. destruct es; [congruence | intros _; left; reflexivity]. Qed.

Lemma handleCounts_degrades_witness :
  snd (fst (handleCounts (R := runtime) broken_board only_v2 first_of))
  = degraded broken_board "Unexpected Jira v2 response (no total)" /\
  exists f,
    In f (count_tasks broken_board) /\
    fst (fetchFilterCount (R := runtime) broken_board only_v2 f)
    = Throw "Unexpected Jira v2 response (no total)".
Proof.
  apply (proj1 (proj2 (handleCounts_degrades (R := runtime) broken_board
                         only_v2 first_of first_of_member))).
  reflexivity.
Defined.

Example loadEnv_example :
  loadEnv (Some env_file) process_env !! "JIRA_EMAIL"%string
  = Some "me@example.com"%string /\
  loadEnv (Some env_file) process_env !! "PORT"%string
  = Some "5173"%string /\
  loadEnv (Some env_file) process_env !! "no equals sign"%string = None /\
  size (loadEnv (Some env_file) process_env) = 2%nat /\
  loadEnv None process_env = process_env.
Proof. vm_compute. repeat split. Qed.


Lemma pair_key_round_trip_witness :
  toPair ("In QA" +:+ arrow +:+ "Done", 2)
  = {| pe_from := Some "In QA"%string; pe_to := Some "Done"%string;
       pe_count := 2 |} /\
  pairKey (toPair ("In QA" +:+ arrow +:+ "Done", 2))
  = "In QA" +:+ arrow +:+ "Done".
Proof.
  apply (pair_key_round_trip "In QA" "Done" 2); reflexivity.
Defined.

(** Where the round trip fails: more than one separator in the key. *)
Example pair_key_with_arrow :
  toPair ("a" +:+ arrow +:+ "b" +:+ arrow +:+ "c", 1)
  = {| pe_from := Some "a"%string; pe_to := Some "b"%string;
       pe_count := 1 |}.
Proof. reflexivity. Qed.

Lemma countdown_adds_up_witness :
  let '(days, hours, mins, secs) := countdown 93784005 in
  days * 86400 + hours * 3600 + mins * 60 + secs = 93784005 / 1000 /\
  0 <= days /\ 0 <= hours < 24 /\ 0 <= mins < 60 /\ 0 <= secs < 60 /\
  String.length (two_digits hours) = 2%nat /\
  String.length (two_digits mins) = 2%nat /\
  String.length (two_digits secs) = 2%nat.
Proof.
  apply (countdown_adds_up 93784005). lia.
Defined.

Example countdown_example :
  countdown 93784005 = (1, 2, 3, 4) /\
  two_digits 2 = "02"%string /\ two_digits 59 = "59"%string.
Proof. repeat split. Qed.

Example buildFilterInfo_examples :
  buildFilterInfo (R := runtime) (fun s => s) "https://jira.example.com/"
    "QA" " 14621 "
  = {| fi_label := "QA";
       fi_url := "https://jira.example.com/issues/?filter=14621";
       fi_text := "Filter 14621" |} /\
  buildFilterInfo (R := runtime) (fun s => s) "https://jira.example.com"
    "Dev" "project = BUG"
  = {| fi_label := "Dev";
       fi_url := "https://jira.example.com/issues/?jql=project = BUG";
       fi_text := "JQL (project = BUG)" |} /\
  buildFilterInfo (R := runtime) (fun s => s) "/" "Dev" "project = BUG"
  = {| fi_label := "Dev"; fi_url := EmptyString; fi_text := EmptyString |}.
Proof. repeat split. Qed.


End MoreChecks.
